(** * GSConnect WebExtension: background session manager and popup

    A shallow embedding of the extension's background script
    (native-messaging session, shared state, message router, context-menu
    and icon synchroniser) and of the popup's URL classification, with the
    properties of the specification proved, or refuted, on it.

    Conventions of the embedding:
    - JavaScript values that cross the wire are [JsValue]s; a URL is an
      [option string] ([None] is [undefined]);
    - the browser (ports, [storage.local], timers, menus, tabs) is the
      host part of a [World]; the two module-level variables of the
      background script are its first two fields;
    - every host call is recorded in [trace], newest call first;
    - handlers are computations in the state-and-exception monad [M]; an
      [async] handler is run to completion in one step. *)

From stdpp Require Import gmap strings list fin_maps.
From Stdlib Require Import ZArith Lia Ascii.

Local Open Scope string_scope.
Local Open Scope list_scope.
Local Open Scope nat_scope.

(** ** JavaScript values *)

#[warnings="-register-all"]
Inductive JsValue : Type :=
| JUndefined
| JNull
| JBool (b : bool)
| JNum (n : Z)
| JStr (s : string)
| JArr (xs : list JsValue)
| JObj (fields : list (string * JsValue)).

(** [Boolean(v)]: numbers of the model are integers, so [NaN] is absent. *)
Definition truthy (v : JsValue) : bool :=
  match v with
  | JUndefined | JNull => false
  | JBool b => b
  | JNum n => negb (n =? 0)%Z
  | JStr s => negb (String.eqb s "")
  | JArr _ | JObj _ => true
  end.

Definition typeof (v : JsValue) : string :=
  match v with
  | JUndefined => "undefined"
  | JNull | JArr _ | JObj _ => "object"
  | JBool _ => "boolean"
  | JNum _ => "number"
  | JStr _ => "string"
  end.

(** [v === s] for a string literal [s], as a [switch] case compares. *)
Definition is_string (v : JsValue) (s : string) : bool :=
  match v with
  | JStr s' => String.eqb s' s
  | _ => false
  end.

(** [v === true] and [v === null]. *)
Definition is_true (v : JsValue) : bool :=
  match v with
  | JBool true => true
  | _ => false
  end.

Definition is_null (v : JsValue) : bool :=
  match v with
  | JNull => true
  | _ => false
  end.

Fixpoint assoc (k : string) (fields : list (string * JsValue)) : option JsValue :=
  match fields with
  | [] => None
  | (k', v) :: rest => if String.eqb k k' then Some v else assoc k rest
  end.

(** What is stored in [v] under the key [k]: the field of an object,
    [undefined] where there is none.  Only [type] and [data] are ever read,
    which no array, string, number or boolean carries. *)
Definition field (k : string) (v : JsValue) : JsValue :=
  match v with
  | JObj fields => default JUndefined (assoc k fields)
  | _ => JUndefined
  end.

(** Truthiness of a URL as the host hands it over: [undefined] or a string. *)
Definition url_truthy (url : option string) : bool :=
  match url with
  | None => false
  | Some s => negb (String.eqb s "")
  end.

(** [s.startsWith(p)] *)
Fixpoint startsWith (s p : string) {struct p} : bool :=
  match p, s with
  | EmptyString, _ => true
  | String _ _, EmptyString => false
  | String c p', String d s' => Ascii.eqb c d && startsWith s' p'
  end.

(** ** URL classification *)

Definition SPECIAL_PROTOCOLS : list string :=
  [ "about:"; "chrome:"; "chrome-extension:"; "edge:"; "file:"; "moz-extension:" ].

Module Popup.

(** [isSpecialUrl] of the popup script. *)
Definition isSpecialUrl (url : option string) : bool :=
  if negb (url_truthy url) then true
  else existsb (fun protocol => startsWith (default "" url) protocol)
               SPECIAL_PROTOCOLS.

End Popup.

Module Background.

(** The classification the background script computes in place, both in
    [updateIconState] and in the debounced menu rebuild:
    [SPECIAL_PROTOCOLS.some((p) => url && url.startsWith(p))]. *)
Definition isSpecialUrl (url : option string) : bool :=
  existsb (fun p => url_truthy url && startsWith (default "" url) p)
          SPECIAL_PROTOCOLS.

End Background.

(** The scheme of a URL, colon included: the text up to the first colon.
    This is the specification's notion, used to state the claims; the code
    only tests prefixes. *)
Fixpoint scheme (s : string) : option string :=
  match s with
  | EmptyString => None
  | String c rest =>
      if Ascii.eqb c ":"%char then Some ":"
      else option_map (String c) (scheme rest)
  end.

(** ** The host and the state of the background script *)

(** Listeners are function references; each port event only ever receives
    the one function the script registers on it. *)
Inductive DisconnectListener : Type := OnNMHDisconnect.
Inductive MessageListener : Type := HandleNMHMessage.

(** A native-messaging port as the host keeps it; [sent] holds the
    messages delivered to the companion process, newest first. *)
Record Port : Type := mkPort {
  port_open : bool;
  onDisconnect : list DisconnectListener;
  onMessage : list MessageListener;
  sent : list JsValue
}.

Definition close (q : Port) : Port :=
  mkPort false (onDisconnect q) (onMessage q) (sent q).

Definition push (m : JsValue) (q : Port) : Port :=
  mkPort (port_open q) (onDisconnect q) (onMessage q) (m :: sent q).

Record Tab : Type := mkTab { tab_id : nat; tab_url : option string }.

Record MenuEntry : Type := mkMenuEntry {
  menu_id : string;
  menu_title : string;
  menu_contexts : list string
}.

Record MessageSender : Type := mkSender { sender_tab : option Tab }.

Inductive Level : Type := LogInfo | LogWarn | LogError.

(** The calls the script makes into the host.  A [Console] call keeps its
    level, its leading text and the data values shown with it; the caller
    tag, error objects and the sender are left out. *)
Inductive HostCall : Type :=
| Console (lvl : Level) (text : string) (shown : list JsValue)
| ConnectNative (app : string)
| PortDisconnect (p : nat)
| AddDisconnectListener (p : nat) (l : DisconnectListener)
| AddMessageListener (p : nat) (l : MessageListener)
| PostMessage (p : nat) (m : JsValue)
| StorageSet (items : list (string * JsValue))
| ClearTimeout (handle : option nat)
| SetTimeout (id : nat) (delay : nat)
| MenusRemoveAll
| MenusCreate (entry : MenuEntry)
| TabsQuery
| TabsGet (tabId : nat)
| ActionEnable (tabId : nat)
| ActionDisable (tabId : nat)
| ActionOpenPopup.

(** [nmhPort] and [updateContextMenuTimeout] are the script's two module
    variables, the other fields belong to the browser.  Time is counted in
    milliseconds; a pending timer is its handle and the time it is due. *)
Record World : Type := mkWorld {
  nmhPort : option nat;
  updateContextMenuTimeout : option nat;
  ports : list Port;
  storage : gmap string JsValue;
  now : nat;
  timers : list (nat * nat);
  next_timer : nat;
  menus : list MenuEntry;
  tabs : gmap nat (option string);
  active_tab : option nat;
  trace : list HostCall
}.

Definition set_nmhPort (v : option nat) (w : World) : World :=
  mkWorld v (updateContextMenuTimeout w) (ports w) (storage w) (now w)
          (timers w) (next_timer w) (menus w) (tabs w) (active_tab w) (trace w).
Definition set_updateContextMenuTimeout (v : option nat) (w : World) : World :=
  mkWorld (nmhPort w) v (ports w) (storage w) (now w)
          (timers w) (next_timer w) (menus w) (tabs w) (active_tab w) (trace w).
Definition set_ports (v : list Port) (w : World) : World :=
  mkWorld (nmhPort w) (updateContextMenuTimeout w) v (storage w) (now w)
          (timers w) (next_timer w) (menus w) (tabs w) (active_tab w) (trace w).
Definition set_storage (v : gmap string JsValue) (w : World) : World :=
  mkWorld (nmhPort w) (updateContextMenuTimeout w) (ports w) v (now w)
          (timers w) (next_timer w) (menus w) (tabs w) (active_tab w) (trace w).
Definition set_now (v : nat) (w : World) : World :=
  mkWorld (nmhPort w) (updateContextMenuTimeout w) (ports w) (storage w) v
          (timers w) (next_timer w) (menus w) (tabs w) (active_tab w) (trace w).
Definition set_timers (v : list (nat * nat)) (w : World) : World :=
  mkWorld (nmhPort w) (updateContextMenuTimeout w) (ports w) (storage w) (now w)
          v (next_timer w) (menus w) (tabs w) (active_tab w) (trace w).
Definition set_next_timer (v : nat) (w : World) : World :=
  mkWorld (nmhPort w) (updateContextMenuTimeout w) (ports w) (storage w) (now w)
          (timers w) v (menus w) (tabs w) (active_tab w) (trace w).
Definition set_menus (v : list MenuEntry) (w : World) : World :=
  mkWorld (nmhPort w) (updateContextMenuTimeout w) (ports w) (storage w) (now w)
          (timers w) (next_timer w) v (tabs w) (active_tab w) (trace w).
Definition set_tabs (v : gmap nat (option string)) (w : World) : World :=
  mkWorld (nmhPort w) (updateContextMenuTimeout w) (ports w) (storage w) (now w)
          (timers w) (next_timer w) (menus w) v (active_tab w) (trace w).
Definition set_active_tab (v : option nat) (w : World) : World :=
  mkWorld (nmhPort w) (updateContextMenuTimeout w) (ports w) (storage w) (now w)
          (timers w) (next_timer w) (menus w) (tabs w) v (trace w).
Definition set_trace (v : list HostCall) (w : World) : World :=
  mkWorld (nmhPort w) (updateContextMenuTimeout w) (ports w) (storage w) (now w)
          (timers w) (next_timer w) (menus w) (tabs w) (active_tab w) v.

(** ** Computations: state threaded through, exceptions as results *)

Inductive Res (A : Type) : Type :=
| Ok (a : A)
| Throw (e : string).
Arguments Ok {A} a.
Arguments Throw {A} e.

Definition M (A : Type) : Type := World → Res A * World.

Definition ret {A} (a : A) : M A := fun w => (Ok a, w).

Definition throw {A} (e : string) : M A := fun w => (Throw e, w).

Definition bind {A B} (m : M A) (k : A → M B) : M B :=
  fun w =>
    match m w with
    | (Ok a, w') => k a w'
    | (Throw e, w') => (Throw e, w')
    end.

(** [try { m } catch (e) { h e }]: what [m] did before it threw stays done. *)
Definition try_catch {A} (m : M A) (h : string → M A) : M A :=
  fun w =>
    match m w with
    | (Ok a, w') => (Ok a, w')
    | (Throw e, w') => h e w'
    end.

Definition read {A} (f : World → A) : M A := fun w => (Ok (f w), w).

Definition modify (f : World → World) : M unit := fun w => (Ok tt, f w).

Declare Scope js_scope.
Delimit Scope js_scope with js.
Notation "x <- c1 ;; c2" := (bind c1 (fun x => c2))
  (at level 100, c1 at next level, c2 at level 200, right associativity) : js_scope.
Notation "c1 ;; c2" := (bind c1 (fun _ => c2))
  (at level 100, c2 at level 200, right associativity) : js_scope.
Local Open Scope js_scope.

Definition emit (c : HostCall) : M unit :=
  modify (fun w => set_trace (c :: trace w) w).

(** Property read [v.k] for the keys the script reads ([type], [data]):
    a [TypeError] on [undefined] and [null], otherwise [field k v]. *)
Definition get_prop (v : JsValue) (k : string) : M JsValue :=
  match v with
  | JUndefined | JNull => throw "TypeError"
  | _ => ret (field k v)
  end.

(** *** Host primitives *)

Definition console (lvl : Level) (text : string) (shown : list JsValue) : M unit :=
  emit (Console lvl text shown).

(** [browser.runtime.connectNative]: whether the host can open the channel
    is the host's choice, [host_ok]; a new port is open and has no listener. *)
Definition connectNative (host_ok : bool) (app : string) : M nat :=
  emit (ConnectNative app) ;;
  if host_ok then
    p <- read (fun w => length (ports w)) ;;
    modify (fun w => set_ports (ports w ++ [mkPort true [] [] []]) w) ;;
    ret p
  else throw "connectNative failed".

Definition update_port (p : nat) (f : Port → Port) : M unit :=
  modify (fun w => set_ports (alter f p (ports w)) w).

(** [port.disconnect()]: closes our end; our own [onDisconnect] listeners
    are not called for it. *)
Definition port_disconnect (p : nat) : M unit :=
  emit (PortDisconnect p) ;;
  update_port p close.

Definition addDisconnectListener (p : nat) (l : DisconnectListener) : M unit :=
  emit (AddDisconnectListener p l) ;;
  update_port p (fun q => mkPort (port_open q) (onDisconnect q ++ [l]) (onMessage q) (sent q)).

Definition addMessageListener (p : nat) (l : MessageListener) : M unit :=
  emit (AddMessageListener p l) ;;
  update_port p (fun q => mkPort (port_open q) (onDisconnect q) (onMessage q ++ [l]) (sent q)).

Definition is_open (p : nat) (w : World) : bool :=
  match ports w !! p with
  | Some q => port_open q
  | None => false
  end.

(** [port.postMessage(m)]: throws on a port that is no longer open. *)
Definition postMessage (p : nat) (m : JsValue) : M unit :=
  emit (PostMessage p m) ;;
  o <- read (is_open p) ;;
  if (o : bool) then update_port p (push m)
  else throw "Attempting to use a disconnected port object".

(** [browser.storage.local.set(items)]: the keys given are overwritten,
    the others kept. *)
Definition storage_set (items : list (string * JsValue)) : M unit :=
  emit (StorageSet items) ;;
  modify (fun w => set_storage (list_to_map items ∪ storage w) w).

(** [browser.storage.local.get(keys)]: the part of the record under [keys]. *)
Definition storage_get (keys : list string) (w : World) : gmap string JsValue :=
  filter (fun kv => kv.1 ∈ keys) (storage w).

Definition clearTimeout (handle : option nat) : M unit :=
  emit (ClearTimeout handle) ;;
  modify (fun w =>
    set_timers (filter (fun t => Some t.1 ≠ handle) (timers w)) w).

Definition setTimeout (delay : nat) : M nat :=
  id <- read next_timer ;;
  emit (SetTimeout id delay) ;;
  modify (fun w => set_next_timer (S id) (set_timers (timers w ++ [(id, now w + delay)]) w)) ;;
  ret id.

Definition menus_removeAll : M unit :=
  emit MenusRemoveAll ;; modify (set_menus []).

(** [browser.contextMenus.create]: fails when the id is already taken. *)
Definition menus_create (entry : MenuEntry) : M unit :=
  emit (MenusCreate entry) ;;
  ms <- read menus ;;
  if existsb (fun e => String.eqb (menu_id e) (menu_id entry)) ms
  then throw "Cannot create item with duplicate id"
  else modify (set_menus (ms ++ [entry])).

(** [browser.tabs.query({active: true, currentWindow: true})] *)
Definition tabs_query_active : M (list Tab) :=
  emit TabsQuery ;;
  read (fun w =>
    match active_tab w with
    | Some i =>
        match tabs w !! i with
        | Some url => [mkTab i url]
        | None => []
        end
    | None => []
    end).

(** [browser.tabs.get(tabId)]: rejects when there is no such tab. *)
Definition tabs_get (tabId : nat) : M Tab :=
  emit (TabsGet tabId) ;;
  t <- read (fun w => tabs w !! tabId) ;;
  match t with
  | Some url => ret (mkTab tabId url)
  | None => throw "No tab with id"
  end.

(** ** The background script *)

Definition APPLICATION_ID : string := "org.gnome.shell.extensions.gsconnect".

Definition CONTEXT_TYPES : list string :=
  [ "audio"; "frame"; "image"; "link"; "page"; "video" ].

Definition onNMHDisconnect : M unit :=
  modify (set_nmhPort None) ;;
  storage_set [("devices", JArr []); ("connected", JBool false)].

Definition connectToNMH (host_ok : bool) : M unit :=
  try_catch
    (old <- read nmhPort ;;
     match old with
     | Some p => port_disconnect p
     | None => ret tt
     end ;;
     p <- connectNative host_ok APPLICATION_ID ;;
     modify (set_nmhPort (Some p)) ;;
     addDisconnectListener p OnNMHDisconnect ;;
     addMessageListener p HandleNMHMessage)
    (fun _ =>
       console LogError "Failed to connect to NMH." [] ;;
       onNMHDisconnect).

Definition sendMessageToNMH (message : JsValue) : M bool :=
  port <- read nmhPort ;;
  match port with
  | None =>
      console LogError "NMH port is not connected. Message not sent." [] ;;
      ret false
  | Some p =>
      try_catch
        (postMessage p message ;; ret true)
        (fun _ =>
           console LogError "Failed to post message to NMH." [] ;;
           ret false)
  end.

(** [updateContextMenu(delay = 250)]; [None] is a call without argument. *)
Definition updateContextMenu (delay : option nat) : M unit :=
  handle <- read updateContextMenuTimeout ;;
  clearTimeout handle ;;
  id <- setTimeout (default 250 delay) ;;
  modify (set_updateContextMenuTimeout (Some id)).

(** The function [updateContextMenu] hands to [setTimeout]. *)
Definition rebuildContextMenu : M unit :=
  try_catch
    (menus_removeAll ;;
     ts <- tabs_query_active ;;
     let currentTabUrl := head ts ≫= tab_url in
     if negb (Background.isSpecialUrl currentTabUrl) then
       menus_create (mkMenuEntry "openPopup" "Send with GSConnect" CONTEXT_TYPES)
     else ret tt)
    (fun _ => console LogError "Failed to update context menu:" []).

Definition handleNMHMessage (message : JsValue) : M unit :=
  invalid <-
    (if negb (truthy message) then ret true
     else t <- get_prop message "type" ;;
          ret (negb (String.eqb (typeof t) "string"))) ;;
  if (invalid : bool) then
    console LogError "Invalid message received from NMH." []
  else
    t <- get_prop message "type" ;;
    if is_string t "connected" then
      data <- get_prop message "data" ;;
      if is_true data then
        sendMessageToNMH (JObj [("type", JStr "devices")]) ;; ret tt
      else ret tt
    else if is_string t "devices" then
      data <- get_prop message "data" ;;
      storage_set [("devices", data); ("connected", JBool true)] ;;
      updateContextMenu None
    else console LogWarn "Unknown message type received: " [t].

Definition updateIconState (tabId : nat) (url : option string) : M unit :=
  if Background.isSpecialUrl url then emit (ActionDisable tabId)
  else emit (ActionEnable tabId).

Definition handleContextMenuClick (menuItemId : string) : M unit :=
  if String.eqb menuItemId "openPopup" then emit ActionOpenPopup else ret tt.

Definition handleRuntimeMessage (message : JsValue) (sender : MessageSender) : M unit :=
  console LogInfo "Received message:" [message] ;;
  if negb (String.eqb (typeof message) "object") || is_null message
  then console LogWarn "Received invalid message." []
  else
    t <- get_prop message "type" ;;
    if is_string t "share" then
      match sender_tab sender with
      | Some _ =>
          console LogWarn "Received a 'share' message from a tab. Ignoring." []
      | None =>
          ok <- sendMessageToNMH message ;;
          if (ok : bool) then ret tt
          else console LogError "Failed to send 'share' message to NMH." []
      end
    else console LogWarn "Received unknown message type: " [t].

Definition initializeState (host_ok : bool) : M unit :=
  connectToNMH host_ok ;;
  ts <- tabs_query_active ;;
  match head ts with
  | Some t => updateIconState (tab_id t) (tab_url t)
  | None => ret tt
  end.

(** The listener of [browser.tabs.onActivated]. *)
Definition onTabActivated (tabId : nat) : M unit :=
  t <- tabs_get tabId ;;
  updateIconState (tab_id t) (tab_url t) ;;
  updateContextMenu None.

(** The listener of [browser.tabs.onUpdated]; [url] is [changeInfo.url]. *)
Definition onTabUpdated (tabId : nat) (url : option string) : M unit :=
  if url_truthy url then
    updateIconState tabId url ;;
    updateContextMenu None
  else ret tt.

(** ** Events of the host *)

(** The host calls every listener of an event; an exception in one of them
    is reported and does not keep the others from running. *)
Fixpoint dispatch {L} (run : L → M unit) (ls : list L) : M unit :=
  match ls with
  | [] => ret tt
  | l :: rest =>
      fun w =>
        match run l w with
        | (Ok _, w') => dispatch run rest w'
        | (Throw e, w') => (Throw e, (dispatch run rest w').2)
        end
  end.

Definition run_disconnect_listener (l : DisconnectListener) : M unit :=
  match l with
  | OnNMHDisconnect => onNMHDisconnect
  end.

Definition run_message_listener (message : JsValue) (l : MessageListener) : M unit :=
  match l with
  | HandleNMHMessage => handleNMHMessage message
  end.

(** The companion process sends [message] over port [p]. *)
Definition native_message (p : nat) (message : JsValue) : M unit :=
  q <- read (fun w => ports w !! p) ;;
  match q with
  | Some q =>
      if port_open q then dispatch (run_message_listener message) (onMessage q)
      else ret tt
  | None => ret tt
  end.

(** The companion process closes port [p], or dies. *)
Definition native_disconnect (p : nat) : M unit :=
  q <- read (fun w => ports w !! p) ;;
  match q with
  | Some q =>
      if port_open q then
        update_port p close ;;
        dispatch run_disconnect_listener (onDisconnect q)
      else ret tt
  | None => ret tt
  end.

(** One millisecond passes: the timers that are due fire, oldest first.
    Every timer of the script carries the same function. *)
Definition tick : M unit :=
  modify (fun w => set_now (S (now w)) w) ;;
  due <- read (fun w => filter (fun t : nat * nat => (t.2 ≤ now w)%nat) (timers w)) ;;
  modify (fun w => set_timers (filter (fun t : nat * nat => ¬ (t.2 ≤ now w)%nat) (timers w)) w) ;;
  dispatch (fun _ : nat * nat => rebuildContextMenu) due.

Fixpoint elapse (ms : nat) (w : World) : World :=
  match ms with
  | 0 => w
  | S n => elapse n (tick w).2
  end.

(** The background context is torn down and started anew: the module
    variables are initial again, its ports and timers are gone; what the
    browser keeps (storage, menus, tabs) stays. *)
Definition reload (w : World) : World :=
  set_nmhPort None
    (set_updateContextMenuTimeout None
       (set_ports (map close (ports w))
          (set_timers [] w))).

Inductive Event : Type :=
| Installed (host_ok : bool)
| Startup (host_ok : bool)
| Reloaded
| NativeMessage (p : nat) (message : JsValue)
| NativeDisconnect (p : nat)
| RuntimeMessage (message : JsValue) (sender : MessageSender)
| TabCreated (tabId : nat) (url : option string)
| TabActivated (tabId : nat)
| TabUpdated (tabId : nat) (url : option string)
| TabRemoved (tabId : nat)
| MenuClicked (menuItemId : string)
| Elapsed (ms : nat).

(** What the host does on an event before, and by, calling the script. *)
Definition step (e : Event) : M unit :=
  match e with
  | Installed host_ok | Startup host_ok => initializeState host_ok
  | Reloaded => modify reload
  | NativeMessage p message => native_message p message
  | NativeDisconnect p => native_disconnect p
  | RuntimeMessage message sender => handleRuntimeMessage message sender
  | TabCreated tabId url => modify (fun w => set_tabs (<[tabId := url]> (tabs w)) w)
  | TabActivated tabId =>
      modify (set_active_tab (Some tabId)) ;;
      onTabActivated tabId
  | TabUpdated tabId url =>
      modify (fun w =>
        match url with
        | Some _ => set_tabs (<[tabId := url]> (tabs w)) w
        | None => w
        end) ;;
      onTabUpdated tabId url
  | TabRemoved tabId =>
      modify (fun w =>
        set_tabs (delete tabId (tabs w))
          (if decide (active_tab w = Some tabId) then set_active_tab None w else w))
  | MenuClicked menuItemId => handleContextMenuClick menuItemId
  | Elapsed ms => modify (elapse ms)
  end.

Definition run (evs : list Event) (w : World) : World :=
  foldl (fun w e => (step e w).2) w evs.

(** The world at installation: nothing stored, nothing open, no tab. *)
Definition fresh : World :=
  mkWorld None None [] ∅ 0 [] 0 [] ∅ None [].

(** * Invariants and observations *)

(** [preserves I m]: running [m] in a world where [I] holds leaves a world
    where it holds, whether [m] returns or throws. *)
Definition preserves {A} (I : World → Prop) (m : M A) : Prop :=
  ∀ w, I w → I (m w).2.

(** ** The shared record *)

Definition DISCONNECTED : list (string * JsValue) :=
  [("devices", JArr []); ("connected", JBool false)].


(** ** The debounce timer and the menu *)

(** At most one timer is pending, and the module variable holds its handle. *)
Definition timers_ok (w : World) : Prop :=
  match timers w with
  | [] => True
  | [t] => updateContextMenuTimeout w = Some t.1
  | _ => False
  end.

(** ** The channel *)

(** The port as it is once [connectToNMH] has set it up. *)
Definition CHANNEL : Port := mkPort true [OnNMHDisconnect] [HandleNMHMessage] [].

(** Every open port is the one [nmhPort] names and carries one listener of
    each kind, and [nmhPort] never names a closed port. *)
Definition ports_ok (w : World) : Prop :=
  (∀ p q, ports w !! p = Some q → port_open q = true →
     nmhPort w = Some p
     ∧ onDisconnect q = [OnNMHDisconnect] ∧ onMessage q = [HandleNMHMessage])
  ∧ (∀ p, nmhPort w = Some p → is_open p w = true).

Definition all_closed (l : list Port) : Prop :=
  ∀ p q, l !! p = Some q → port_open q = false.

(** The ports once the script has disconnected the one it held. *)
Definition released (w : World) : list Port :=
  match nmhPort w with
  | Some p => alter close p (ports w)
  | None => ports w
  end.

(** ** Observations on the trace *)

(** The outbound messages among the host calls, newest first. *)
Definition posts (tr : list HostCall) : list (nat * JsValue) :=
  omap (fun c => match c with PostMessage p m => Some (p, m) | _ => None end) tr.

Definition DEVICES_REQUEST : JsValue := JObj [("type", JStr "devices")].

Definition is_rebuild (c : HostCall) : bool :=
  match c with
  | MenusRemoveAll => true
  | _ => false
  end.

(** How many menu rebuilds have run. *)
Definition rebuilds (tr : list HostCall) : nat := length (List.filter is_rebuild tr).

(** The URL the rebuild sees: [tabs[0]?.url] of the active-tab query. *)
Definition current_url (w : World) : option string :=
  match active_tab w with
  | Some i => default None (tabs w !! i)
  | None => None
  end.

Definition SHARE_ENTRY : MenuEntry :=
  mkMenuEntry "openPopup" "Send with GSConnect" CONTEXT_TYPES.

Definition expected_menu (url : option string) : list MenuEntry :=
  if Background.isSpecialUrl url then [] else [SHARE_ENTRY].

(** ** Bursts of triggers *)

(** A later trigger of a burst: it comes [gap] milliseconds after the one
    before it, and by then the browser has the tabs [tabs_then], the active
    one being [active_then]. *)
Record Trigger : Type := mkTrigger {
  gap : nat;
  tabs_then : gmap nat (option string);
  active_then : option nat
}.

Definition retrigger (x : Trigger) (w : World) : World :=
  (updateContextMenu None
     (set_active_tab (active_then x) (set_tabs (tabs_then x) (elapse (gap x) w)))).2.

Definition burst (xs : list Trigger) (w : World) : World :=
  foldl (fun w x => retrigger x w) w xs.

(** A change of what the browser shows that no listener of the script
    hears of, as when another window gets the focus or one is closed:
    [lapse] milliseconds after what came before, the browser has the tabs
    [tabs_after], the active one being [active_after].  The script is not
    called. *)
Record Change : Type := mkChange {
  lapse : nat;
  tabs_after : gmap nat (option string);
  active_after : option nat
}.

Definition change (c : Change) (w : World) : World :=
  set_active_tab (active_after c) (set_tabs (tabs_after c) (elapse (lapse c) w)).

Definition changes (cs : list Change) (w : World) : World :=
  foldl (fun w c => change c w) w cs.

(** The time a sequence of changes takes. *)
Fixpoint span (cs : list Change) : nat :=
  match cs with
  | [] => 0
  | c :: cs => lapse c + span cs
  end.

(** The state a trigger leaves: its timer is the only one, due a full
    delay from now. *)
Definition pending (w : World) : Prop :=
  ∃ id, timers w = [(id, now w + 250)] ∧ updateContextMenuTimeout w = Some id.

(** ** Sequences of connection attempts *)

Definition connects (oks : list bool) (w : World) : World :=
  foldl (fun w ok => (connectToNMH ok w).2) w oks.

(** Exactly one channel is active, with one listener of each kind on it. *)
Definition one_channel (w : World) : Prop :=
  ∃ p q,
    nmhPort w = Some p ∧ ports w !! p = Some q ∧ port_open q = true
    ∧ onDisconnect q = [OnNMHDisconnect] ∧ onMessage q = [HandleNMHMessage]
    ∧ ∀ p' q', ports w !! p' = Some q' → port_open q' = true → p' = p.

Definition no_channel (w : World) : Prop :=
  nmhPort w = None ∧ all_closed (ports w).

(** ** Writes to the store *)



(** ** Messages the protocol knows *)

(** The specification's reading of the protocol: the two shapes it tells
    the handler to act on. *)
Definition recognised (message : JsValue) : Prop :=
  (field "type" message = JStr "connected" ∧ field "data" message = JBool true)
  ∨ (field "type" message = JStr "devices" ∧ ∃ ds, field "data" message = JArr ds).

(** Handling returns normally, logs one line, sends nothing and leaves the
    store as it was. *)
Definition logged_and_dropped (message : JsValue) (w : World) : Prop :=
  let r := handleNMHMessage message w in
  r.1 = Ok tt
  ∧ (∃ lvl text shown, trace r.2 = Console lvl text shown :: trace w)
  ∧ storage r.2 = storage w.

(** ** Sample messages *)

Definition EXAMPLE_SHARE : JsValue :=
  JObj [("type", JStr "share");
        ("data", JObj [("device", JStr "a"); ("url", JStr "https://example.com");
                       ("action", JStr "share")])].

Definition EXAMPLE_DEVICES : JsValue :=
  JObj [("type", JStr "devices"); ("data", JArr [JStr "d1"; JStr "d2"])].

Definition MALFORMED_DEVICES : JsValue :=
  JObj [("type", JStr "devices"); ("data", JStr "oops")].

Definition EXAMPLE_CONNECTED (data : JsValue) : JsValue :=
  JObj [("type", JStr "connected"); ("data", data)].


(** * Further observations on the background script *)

(** The icon calls among the host calls, newest first: the tab and whether
    its icon was enabled. *)
Definition icon_calls (tr : list HostCall) : list (nat * bool) :=
  omap (fun c =>
          match c with
          | ActionEnable t => Some (t, true)
          | ActionDisable t => Some (t, false)
          | _ => None
          end) tr.

Definition is_connect (c : HostCall) : bool :=
  match c with
  | ConnectNative _ => true
  | _ => false
  end.

(** How often the script has asked the host for a channel, and with which
    application identifiers. *)
Definition connect_attempts (tr : list HostCall) : nat :=
  length (List.filter is_connect tr).

Definition is_start (e : Event) : bool :=
  match e with
  | Installed _ | Startup _ => true
  | _ => false
  end.

Definition starts (evs : list Event) : nat := length (List.filter is_start evs).

(** The [share] messages a run has received from privileged contexts. *)
Definition share_requests (evs : list Event) : list JsValue :=
  omap (fun e =>
          match e with
          | RuntimeMessage message sender =>
              if is_string (field "type" message) "share"
              then match sender_tab sender with
                   | None => Some message
                   | Some _ => None
                   end
              else None
          | _ => None
          end) evs.

(** Every message posted so far is one of [A]. *)
Definition posts_within (A : JsValue → Prop) (w : World) : Prop :=
  Forall (fun pm => A pm.2) (posts (trace w)).

(** The menu holds nothing, or the share entry and nothing else. *)
Definition menus_ok (w : World) : Prop :=
  menus w = [] ∨ menus w = [SHARE_ENTRY].

(** Whether the scheme of a URL is one of the special ones; a text without
    a colon has no scheme. *)
Definition special_scheme (s : string) : bool :=
  match scheme s with
  | Some p => existsb (String.eqb p) SPECIAL_PROTOCOLS
  | None => false
  end.

(** No channel is held and the posted messages are [ps]. *)
Definition silent (ps : list (nat * JsValue)) (w : World) : Prop :=
  nmhPort w = None ∧ posts (trace w) = ps.

(** * The popup script *)

(** A piece of text as the script puts it together: a literal, a value
    put into a template or assigned as it is, or a message the browser
    looks up for the locale ([browser.i18n.getMessage]) with what is to be
    substituted into it.  A text is the pieces in order. *)
Inductive Piece : Type :=
| Lit (s : string)
| Val (v : JsValue)
| Msg (key : string) (subst : list JsValue).

(** An element as the script builds it: its tag and class, the properties
    assigned to it, its children in order, and what its click listener
    passes to [handleActionClick], if it has one. *)
#[warnings="-register-all"]
Inductive Element : Type :=
| mkElement (tag className : string) (props : list (string * list Piece))
            (children : list Element) (onClick : option (JsValue * string)).

Definition element_children (e : Element) : list Element :=
  match e with
  | mkElement _ _ _ children _ => children
  end.

Definition element_onClick (e : Element) : option (JsValue * string) :=
  match e with
  | mkElement _ _ _ _ onClick => onClick
  end.

(** The popup page: the children of [#popup-content], the console lines,
    the messages handed to [runtime.sendMessage], the alerts shown, and
    whether the window has been closed.  Lists are newest first, except
    [content]. *)
Record PopupState : Type := mkPopup {
  content : list Element;
  popup_log : list (Level * string);
  outbox : list JsValue;
  alerts : list string;
  window_closed : bool
}.

(** What the browser answers the popup: the tabs the active-tab query
    returns, or its failure; what [storage.local.get] returns for the two
    keys; and whether [runtime.sendMessage] is fulfilled. *)
Record PopupHost : Type := mkPopupHost {
  query_result : Res (list Tab);
  stored : gmap string JsValue;
  send_ok : bool
}.

Definition set_content (v : list Element) (s : PopupState) : PopupState :=
  mkPopup v (popup_log s) (outbox s) (alerts s) (window_closed s).

Definition popup_console (lvl : Level) (text : string) (s : PopupState) : PopupState :=
  mkPopup (content s) ((lvl, text) :: popup_log s) (outbox s) (alerts s) (window_closed s).

(** The double quote. *)
Definition DQ : string :=
  String (Ascii.Ascii false true false false false true false false) EmptyString.

Definition getCurrentTab (h : PopupHost) (s : PopupState) : option Tab * PopupState :=
  match query_result h with
  | Ok ts => (head ts, s)
  | Throw _ => (None, popup_console LogError "Popup: Failed to query active tab." s)
  end.

Definition STATUS (message : string) : Element :=
  mkElement "div" "message-container" [("textContent", [Lit message])] [] None.

Definition showStatusMessage (message : string) (s : PopupState) : PopupState :=
  set_content (content s ++ [STATUS message]) s.

Definition createActionButton
    (deviceId : JsValue) (action : string) (title : Piece) (iconPath : string) : Element :=
  mkElement "button" "plugin-button"
    [("innerHTML", [Lit ("<img src=" +:+ DQ); Lit iconPath;
                    Lit (DQ +:+ " alt=" +:+ DQ); title; Lit (DQ +:+ ">")]);
     ("title", [title])]
    [] (Some (deviceId, action)).

(** The buttons of a device: one for every capability it has. *)
Definition device_buttons (device : JsValue) : list Element :=
  (if truthy (field "share" device)
   then [createActionButton (field "id" device) "share"
           (Msg "shareMessage" []) "images/open-in-browser.svg"]
   else [])
  ++ (if truthy (field "telephony" device)
      then [createActionButton (field "id" device) "telephony"
              (Msg "smsMessage" []) "images/message.svg"]
      else []).

(** The list item [createDeviceItem] returns for a device it can read. *)
Definition device_item (device : JsValue) : Element :=
  mkElement "li" "device" []
    [ mkElement "div" "device-main-line" []
        [ mkElement "img" "device-icon"
            [("src", [Lit "images/"; Val (field "type" device); Lit ".svg"]);
             ("alt", [Msg "deviceIconAlt" [field "type" device]])]
            [] None;
          mkElement "span" "device-name"
            [("textContent", [Val (field "name" device)])] [] None ]
        None;
      mkElement "div" "plugin-buttons" [] (device_buttons device) None ]
    None.

(** [createDeviceItem]: reading [device.type] throws on [null] and
    [undefined]; every other value has its properties read, [undefined]
    where it has none. *)
Definition createDeviceItem (device : JsValue) : Res Element :=
  match device with
  | JUndefined | JNull => Throw "TypeError"
  | _ => Ok (device_item device)
  end.

(** The loop of [renderDeviceList]: the items in order, up to the first
    device that makes [createDeviceItem] throw. *)
Fixpoint device_items (devices : list JsValue) : Res (list Element) :=
  match devices with
  | [] => Ok []
  | device :: rest =>
      match createDeviceItem device with
      | Throw e => Throw e
      | Ok item =>
          match device_items rest with
          | Throw e => Throw e
          | Ok items => Ok (item :: items)
          end
      end
  end.

Definition DEVICE_LIST (items : list Element) : Element :=
  mkElement "ul" "device-list" [] items None.

(** The list is attached to the page once all its items are made. *)
Definition renderDeviceList (devices : list JsValue) (s : PopupState)
    : Res unit * PopupState :=
  match device_items devices with
  | Ok items => (Ok tt, set_content (content s ++ [DEVICE_LIST items]) s)
  | Throw e => (Throw e, s)
  end.

(** [v === false] *)
Definition is_false (v : JsValue) : bool :=
  match v with
  | JBool false => true
  | _ => false
  end.

Definition renderPopupUI (h : PopupHost) (s : PopupState) : Res unit * PopupState :=
  let s0 := set_content [] s in
  let (currentTab, s1) := getCurrentTab h s0 in
  match currentTab with
  | None => (Ok tt, showStatusMessage "Sharing is not available on this page." s1)
  | Some t =>
      if Popup.isSpecialUrl (tab_url t)
      then (Ok tt, showStatusMessage "Sharing is not available on this page." s1)
      else
        let devices := default JUndefined (stored h !! "devices") in
        let connected := default JUndefined (stored h !! "connected") in
        if is_false connected
        then (Ok tt, showStatusMessage "GSConnect is not connected." s1)
        else
          match devices with
          | JArr (device :: rest) => renderDeviceList (device :: rest) s1
          | _ => (Ok tt, showStatusMessage "No devices found." s1)
          end
  end.

(** The message the popup sends to the background script. *)
Definition share_message (deviceId : JsValue) (action : string) (url : option string)
    : JsValue :=
  JObj [("type", JStr "share");
        ("data", JObj [("device", deviceId);
                       ("url", match url with Some u => JStr u | None => JUndefined end);
                       ("action", JStr action)])].

Definition sendMessageToBackground
    (deviceId : JsValue) (action : string) (url : option string)
    (h : PopupHost) (s : PopupState) : PopupState :=
  let s1 := mkPopup (content s) (popup_log s)
              (share_message deviceId action url :: outbox s)
              (alerts s) (window_closed s) in
  let s2 :=
    if send_ok h then s1
    else
      let s' := popup_console LogError "Popup: Error sending message to background." s1 in
      mkPopup (content s') (popup_log s') (outbox s')
        ("Failed to send message to the background service. Please try again."
           :: alerts s')
        (window_closed s') in
  mkPopup (content s2) (popup_log s2) (outbox s2) (alerts s2) true.

Definition handleActionClick
    (deviceId : JsValue) (action : string) (h : PopupHost) (s : PopupState) : PopupState :=
  let (currentTab, s1) := getCurrentTab h s in
  match currentTab with
  | None =>
      showStatusMessage "Cannot determine the current page."
        (popup_console LogWarn "Popup: No active tab found." s1)
  | Some t =>
      if Popup.isSpecialUrl (tab_url t)
      then showStatusMessage "Sharing is not available on this page."
             (popup_console LogWarn "Popup: Cannot share from a special page: " s1)
      else sendMessageToBackground deviceId action (tab_url t) h s1
  end.

(** A click on an element: its listener runs, if it has one. *)
Definition click (e : Element) (h : PopupHost) (s : PopupState) : PopupState :=
  match element_onClick e with
  | Some (deviceId, action) => handleActionClick deviceId action h s
  | None => s
  end.

(** ** Observations on the popup *)

(** The tab the popup works with: the first of the query, none when the
    query fails or returns nothing. *)
Definition current_tab (h : PopupHost) : option Tab :=
  match query_result h with
  | Ok ts => head ts
  | Throw _ => None
  end.

(** The click listeners of an element and of all that is below it, in
    document order. *)
Fixpoint clicks (e : Element) : list (JsValue * string) :=
  match e with
  | mkElement _ _ _ children onClick =>
      option_list onClick ++ flat_map clicks children
  end.

(** What a device can do, by its record: the actions in the order of the
    buttons. *)
Definition capabilities (device : JsValue) : list (JsValue * string) :=
  (if truthy (field "share" device) then [(field "id" device, "share")] else [])
  ++ (if truthy (field "telephony" device)
      then [(field "id" device, "telephony")] else []).

Definition nullish (v : JsValue) : bool :=
  match v with
  | JUndefined | JNull => true
  | _ => false
  end.

(** What the popup reads of the background script's world. *)
Definition popup_host (query : Res (list Tab)) (send : bool) (w : World) : PopupHost :=
  mkPopupHost query (storage_get ["devices"; "connected"] w) send.

Definition EMPTY_POPUP : PopupState := mkPopup [] [] [] [] false.

(** * The build configuration *)

(** [process.env.TARGET] is a string or missing.  [v || d]: *)
Definition or_else (v : option string) (d : string) : string :=
  match v with
  | Some s => if String.eqb s "" then d else s
  | None => d
  end.

(** A string or [undefined] inside a template literal. *)
Definition interpolated (v : option string) : string :=
  match v with
  | Some s => s
  | None => "undefined"
  end.

(** [const target = process.env.TARGET || 'chrome'] *)
Definition target (TARGET : option string) : string := or_else TARGET "chrome".

(** [browser: process.env.TARGET || 'chrome'] *)
Definition config_browser (TARGET : option string) : string := or_else TARGET "chrome".

(** [outDir: target ? `dist-${process.env.TARGET}` : 'dist'] *)
Definition config_outDir (TARGET : option string) : string :=
  if negb (String.eqb (target TARGET) "") then "dist-" +:+ interpolated TARGET
  else "dist".

(** What [readJsonFile] returns, as far as [generateManifest] can tell:
    [None] for [null], and else the own enumerable properties of the value,
    which are the members of an object (of a member given twice in the file
    [JSON.parse] keeps the last), the elements of an array and the code
    units of a string under their indices, and none for a number or a
    boolean.  An object spread copies
    these and nothing else; and since no prototype of such a value has a
    [name], a [description] or a [version], reading one of the three gives
    the own property, or [undefined]. *)
Definition Json : Type := option (gmap string JsValue).

(** [pkg.name] and the like, for a [pkg] that is not [null]. *)
Definition property (k : string) (own : gmap string JsValue) : JsValue :=
  default JUndefined (own !! k).

(** [generateManifest], given what [readJsonFile] returns for
    [manifest.json] and [package.json]: reading a property of [null]
    throws, spreading [null] adds nothing. *)
Definition generateManifest (manifest pkg : Json) : Res (gmap string JsValue) :=
  match pkg with
  | None => Throw "TypeError"
  | Some own =>
      Ok (default ∅ manifest
          ∪ {[ "name" := property "name" own;
               "description" := property "description" own;
               "version" := property "version" own ]})
  end.

(** ** Sample states *)

Definition EXAMPLE_PAGE : Res (list Tab) := Ok [mkTab 1 (Some "https://example.com")].

Definition EXAMPLE_PHONE : JsValue :=
  JObj [("id", JStr "a"); ("name", JStr "Phone"); ("type", JStr "phone");
        ("share", JBool true); ("telephony", JBool true)].

Definition EXAMPLE_LAPTOP : JsValue :=
  JObj [("id", JStr "b"); ("name", JStr "Laptop"); ("type", JStr "laptop");
        ("share", JBool true)].

Definition EXAMPLE_STORE (devices : list JsValue) : gmap string JsValue :=
  {[ "devices" := JArr devices; "connected" := JBool true ]}.

(** * Classification by scheme *)

Lemma startsWith_app (s p : string) :
  startsWith s p = true ↔ ∃ r, s = (p +:+ r).
Proof.
  revert s. induction p as [|c p IH]; intros s.
  - split; [intros _; by exists s | done].
  - destruct s as [|d s]; cbn [startsWith].
    + split; [done | intros [r Hr]; discriminate].
    + rewrite andb_true_iff, Ascii.eqb_eq, IH.
      split.
      * intros [-> [r ->]]. by exists r.
      * intros [r [= -> ->]]. split; [done | by exists r].
Qed.

Lemma scheme_startsWith (s p : string) : scheme s = Some p → startsWith s p = true.
Proof.
  revert p. induction s as [|c s IH]; intros p; cbn [scheme]; [done|].
  destruct (Ascii.eqb c ":"%char) eqn:E.
  - intros [= <-]. cbn [startsWith]. by rewrite Ascii.eqb_sym, E.
  - destruct (scheme s) as [q|]; cbn [option_map]; [|done].
    intros [= <-]. cbn [startsWith]. rewrite Ascii.eqb_refl. by apply IH.
Qed.

Lemma special_startsWith_scheme (s p : string) :
  In p SPECIAL_PROTOCOLS → startsWith s p = true → scheme s = Some p.
Proof.
  intros Hin Hp. apply startsWith_app in Hp as [r ->].
  simpl in Hin. repeat (destruct Hin as [<-|Hin]; [reflexivity|]). done.
Qed.

Lemma some_special_iff (s : string) :
  existsb (startsWith s) SPECIAL_PROTOCOLS = true
  ↔ ∃ p, In p SPECIAL_PROTOCOLS ∧ scheme s = Some p.
Proof.
  rewrite existsb_exists. split.
  - intros (p & Hin & Hp). exists p. split; [done|]. by apply special_startsWith_scheme.
  - intros (p & Hin & Hs). exists p. split; [done|]. by apply scheme_startsWith.
Qed.

(** The popup classifies a non-empty URL as special exactly when its scheme
    is one of the special ones, and an empty or undefined URL as special. *)
Lemma popup_isSpecialUrl_scheme (s : string) :
  s ≠ "" →
  Popup.isSpecialUrl (Some s) = true ↔ ∃ p, In p SPECIAL_PROTOCOLS ∧ scheme s = Some p.
Proof.
  intros Hs. unfold Popup.isSpecialUrl. simpl.
  destruct (String.eqb_spec s ""); [done|]. simpl. apply some_special_iff.
Qed.

Lemma popup_isSpecialUrl_falsy :
  Popup.isSpecialUrl None = true ∧ Popup.isSpecialUrl (Some "") = true.
Proof. split; reflexivity. Qed.

(** On non-empty URLs the background script classifies as the popup does. *)
Lemma background_isSpecialUrl_nonempty (s : string) :
  s ≠ "" → Background.isSpecialUrl (Some s) = Popup.isSpecialUrl (Some s).
Proof.
  intros Hs. unfold Background.isSpecialUrl, Popup.isSpecialUrl. simpl.
  destruct (String.eqb_spec s ""); [done|]. reflexivity.
Qed.

Lemma background_isSpecialUrl_scheme (s : string) :
  s ≠ "" →
  Background.isSpecialUrl (Some s) = true
  ↔ ∃ p, In p SPECIAL_PROTOCOLS ∧ scheme s = Some p.
Proof.
  intros Hs. rewrite background_isSpecialUrl_nonempty by done.
  by apply popup_isSpecialUrl_scheme.
Qed.

(** * Reasoning about computations *)

Section Preserves.
Context (I : World → Prop).

Lemma preserves_ret {A} (a : A) : preserves I (ret a).
Proof. by intros w. Qed.

Lemma preserves_throw {A} (e : string) : preserves I (@throw A e).
Proof. by intros w. Qed.

Lemma preserves_read {A} (f : World → A) : preserves I (read f).
Proof. by intros w. Qed.

Lemma preserves_modify (f : World → World) :
  (∀ w, I w → I (f w)) → preserves I (modify f).
Proof. intros Hf w Hw. by apply Hf. Qed.

Lemma preserves_bind {A B} (m : M A) (k : A → M B) :
  preserves I m → (∀ a, preserves I (k a)) → preserves I (bind m k).
Proof.
  intros Hm Hk w Hw. unfold bind. specialize (Hm w Hw).
  destruct (m w) as [[a|e] w']; simpl in *; [by apply Hk | done].
Qed.

Lemma preserves_try_catch {A} (m : M A) (h : string → M A) :
  preserves I m → (∀ e, preserves I (h e)) → preserves I (try_catch m h).
Proof.
  intros Hm Hh w Hw. unfold try_catch. specialize (Hm w Hw).
  destruct (m w) as [[a|e] w']; simpl in *; [done | by apply Hh].
Qed.

Lemma preserves_dispatch {L} (f : L → M unit) (ls : list L) :
  (∀ l, preserves I (f l)) → preserves I (dispatch f ls).
Proof.
  intros Hf. induction ls as [|l ls IH]; intros w Hw; simpl; [done|].
  specialize (Hf l w Hw). destruct (f l w) as [[a|e] w']; simpl in *; by apply IH.
Qed.

Lemma preserves_elapse (ms : nat) :
  preserves I tick → ∀ w, I w → I (elapse ms w).
Proof.
  intros Ht. induction ms as [|n IH]; intros w Hw; simpl; [done|].
  apply IH. by apply Ht.
Qed.

Lemma preserves_run (evs : list Event) :
  (∀ e, preserves I (step e)) → ∀ w, I w → I (run evs w).
Proof.
  intros Hs. induction evs as [|e evs IH]; intros w Hw; simpl; [done|].
  apply IH. by apply Hs.
Qed.
End Preserves.

(** Break a computation down along its binds, handlers and branches. *)
Ltac preserve_step :=
  idtac;
  lazymatch goal with
  | |- preserves _ (bind _ _) => apply preserves_bind; [|intros ?]
  | |- preserves _ (try_catch _ _) => apply preserves_try_catch; [|intros ?]
  | |- preserves _ (ret _) => apply preserves_ret
  | |- preserves _ (throw _) => apply preserves_throw
  | |- preserves _ (read _) => apply preserves_read
  | |- preserves _ (dispatch _ _) => apply preserves_dispatch; intros ?
  | |- preserves _ (modify _) => apply preserves_modify; intros ? ?; assumption
  | |- preserves _ (if ?b then _ else _) => destruct b
  | |- preserves _ (match ?x with _ => _ end) => destruct x
  end.

Ltac head_of t :=
  lazymatch t with
  | ?f _ => head_of f
  | _ => t
  end.

(** Unfold the function called at the head of the computation. *)
Ltac unfold_call :=
  idtac;
  lazymatch goal with
  | |- preserves _ ?m =>
      let h := head_of m in
      lazymatch h with
      | @modify => fail
      | _ => progress unfold h
      end
  end.

(** [preserve leaf] proves [preserves I m] by structure of [m]; [leaf]
    settles the calls that change what [I] speaks about, every other
    assignment has to leave [I] as it is by computation. *)
Ltac preserve leaf := repeat first [ leaf | preserve_step | unfold_call ].

(** ** The shared record *)

Lemma stored_devices (d c : JsValue) (st : gmap string JsValue) :
  (<["devices":=d]> (<["connected":=c]> ∅) ∪ st) !! "devices" = Some d.
Proof. apply lookup_union_Some_l. by rewrite lookup_insert_eq. Qed.

Lemma stored_connected (d c : JsValue) (st : gmap string JsValue) :
  (<["devices":=d]> (<["connected":=c]> ∅) ∪ st) !! "connected" = Some c.
Proof.
  apply lookup_union_Some_l.
  rewrite lookup_insert_ne by done. by rewrite lookup_insert_eq.
Qed.

Lemma stored_other (d c : JsValue) (st : gmap string JsValue) (k : string) :
  k ≠ "devices" → k ≠ "connected" →
  (<["devices":=d]> (<["connected":=c]> ∅) ∪ st) !! k = st !! k.
Proof.
  intros Hd Hc. apply lookup_union_r.
  rewrite !lookup_insert_ne by done. apply lookup_empty.
Qed.

(** What a reader of the two keys gets once both have been written. *)
Lemma storage_get_written (d c : JsValue) (w : World) :
  storage_get ["devices"; "connected"]
    (set_storage (list_to_map [("devices", d); ("connected", c)] ∪ storage w) w)
  = {[ "devices" := d; "connected" := c ]}.
Proof.
  unfold storage_get. apply map_eq. intros k. simpl.
  destruct (decide (k = "devices")) as [->|Hd].
  { rewrite lookup_insert_eq.
    apply map_lookup_filter_Some. split; [apply stored_devices | apply elem_of_cons; by left]. }
  destruct (decide (k = "connected")) as [->|Hc].
  { rewrite lookup_insert_ne by done. rewrite lookup_singleton_eq.
    apply map_lookup_filter_Some.
    split; [apply stored_connected | rewrite !elem_of_cons; by right; left]. }
  rewrite lookup_insert_ne by done. rewrite lookup_singleton_ne by done.
  apply map_lookup_filter_None. right. intros v _.
  rewrite !elem_of_cons, elem_of_nil. simpl. intros [?|[?|[]]]; done.
Qed.

Lemma storage_get_ext (keys : list string) (w w' : World) :
  storage w = storage w' → storage_get keys w = storage_get keys w'.
Proof. unfold storage_get. by intros ->. Qed.








(** ** The debounce timer *)

Lemma timers_ok_length (w : World) : timers_ok w → length (timers w) ≤ 1.
Proof.
  unfold timers_ok. destruct (timers w) as [|t [|t' ts]]; simpl; [lia | lia | done].
Qed.

(** A trigger cancels the pending timer and leaves its own as the only one. *)
Lemma updateContextMenu_timers (delay : option nat) (w : World) :
  timers_ok w →
  timers (updateContextMenu delay w).2 = [(next_timer w, now w + default 250 delay)]
  ∧ updateContextMenuTimeout (updateContextMenu delay w).2 = Some (next_timer w).
Proof.
  unfold timers_ok. intros Hw. simpl. split; [|done].
  destruct (timers w) as [|t [|t' ts]]; [done | | done].
  rewrite Hw. rewrite filter_cons_False; [done|]. by intros [].
Qed.

Lemma updateContextMenu_timers_ok (delay : option nat) :
  preserves timers_ok (updateContextMenu delay).
Proof.
  intros w Hw. destruct (updateContextMenu_timers delay w Hw) as [Ht Hh].
  unfold timers_ok. by rewrite Ht, Hh.
Qed.

Lemma filter_timers_ok (P : nat * nat → Prop) `{∀ t, Decision (P t)} (w : World) :
  timers_ok w → timers_ok (set_timers (filter P (timers w)) w).
Proof.
  unfold timers_ok. simpl. destruct (timers w) as [|t [|t' ts]]; [done | | done].
  intros Hw. destruct (decide (P t)).
  - by rewrite filter_cons_True.
  - by rewrite filter_cons_False.
Qed.

Ltac timers_leaf :=
  idtac;
  lazymatch goal with
  | |- preserves _ (updateContextMenu _) => apply updateContextMenu_timers_ok
  | |- preserves _ (modify (fun w => set_timers (filter _ (timers w)) w)) =>
      apply preserves_modify; intros ?; apply filter_timers_ok
  end.

Lemma tick_timers_ok : preserves timers_ok tick.
Proof. preserve timers_leaf. Qed.

Lemma step_timers_ok (e : Event) : preserves timers_ok (step e).
Proof.
  destruct e; unfold step;
    try (apply preserves_modify; intros w Hw; first [exact Hw | by destruct url]).
  all: try solve [preserve timers_leaf].
  - by apply preserves_modify.
  - destruct url; preserve timers_leaf.
  - apply preserves_modify. intros w Hw. by case_decide.
  - apply preserves_modify. intros w. apply preserves_elapse, tick_timers_ok.
Qed.

Lemma reachable_timers_ok (evs : list Event) : timers_ok (run evs fresh).
Proof. apply preserves_run; [apply step_timers_ok | done]. Qed.

(** ** The channel *)

Lemma released_closed (w : World) : ports_ok w → all_closed (released w).
Proof.
  intros [Hopen _] p q Hq. unfold released in Hq.
  destruct (nmhPort w) as [p0|] eqn:Hp0.
  - destruct (decide (p0 = p)) as [->|Hne].
    + rewrite list_lookup_alter_eq in Hq.
      destruct (ports w !! p); by simplify_eq/=.
    + rewrite list_lookup_alter_ne in Hq by done.
      destruct (port_open q) eqn:Ho; [|done].
      destruct (Hopen p q Hq Ho) as [? _]. congruence.
  - destruct (port_open q) eqn:Ho; [|done].
    destruct (Hopen p q Hq Ho) as [? _]. congruence.
Qed.

Lemma all_closed_ports_ok (w : World) :
  nmhPort w = None → all_closed (ports w) → ports_ok w.
Proof.
  intros Hn Hc. split.
  - intros p q Hq Ho. rewrite (Hc p q Hq) in Ho. done.
  - intros p Hp. congruence.
Qed.

Lemma alter_last (f : Port → Port) (l : list Port) (q : Port) :
  alter f (length l) (l ++ [q]) = l ++ [f q].
Proof.
  rewrite <- (Nat.add_0_r (length l)) at 1. by rewrite alter_app_r.
Qed.

Lemma length_released (w : World) : length (released w) = length (ports w).
Proof. unfold released. destruct (nmhPort w); [apply length_alter | done]. Qed.

(** What a successful [connectToNMH] leaves of the ports and of [nmhPort]. *)
Lemma connectToNMH_opened (w : World) :
  let w' := (connectToNMH true w).2 in
  ports w' = released w ++ [CHANNEL] ∧ nmhPort w' = Some (length (ports w)).
Proof.
  unfold connectToNMH, try_catch, bind, released. simpl.
  destruct (nmhPort w) as [p0|]; simpl.
  - rewrite !alter_last. by rewrite length_alter.
  - by rewrite !alter_last.
Qed.

(** What a failed one leaves. *)
Lemma connectToNMH_failed (w : World) :
  let w' := (connectToNMH false w).2 in
  ports w' = released w ∧ nmhPort w' = None.
Proof.
  unfold connectToNMH, try_catch, bind, released. simpl.
  by destruct (nmhPort w) as [p0|].
Qed.

Lemma channel_ports_ok (w : World) (l : list Port) :
  all_closed l → ports w = l ++ [CHANNEL] → nmhPort w = Some (length l) → ports_ok w.
Proof.
  intros Hc Hp Hn. split.
  - intros p q Hq Ho. rewrite Hp in Hq.
    destruct (decide (p < length l)) as [Hlt|Hge].
    + rewrite lookup_app_l in Hq by done. rewrite (Hc p q Hq) in Ho. done.
    + rewrite lookup_app_r in Hq by lia.
      destruct (p - length l) as [|k] eqn:Hk; simpl in Hq; [|done].
      simplify_eq. split; [|done]. rewrite Hn. f_equal. lia.
  - intros p Hpn. rewrite Hn in Hpn. simplify_eq. unfold is_open. rewrite Hp.
    rewrite lookup_app_r by lia. by rewrite Nat.sub_diag.
Qed.

Lemma connectToNMH_ports_ok (host_ok : bool) : preserves ports_ok (connectToNMH host_ok).
Proof.
  intros w Hw. destruct host_ok.
  - destruct (connectToNMH_opened w) as [Hp Hn].
    apply (channel_ports_ok _ (released w)); [by apply released_closed | done |].
    by rewrite length_released.
  - destruct (connectToNMH_failed w) as [Hp Hn].
    apply all_closed_ports_ok; [done|]. rewrite Hp. by apply released_closed.
Qed.

(** A change to a port that leaves it as open as it was, with the
    listeners it had, keeps the channel in order. *)
Lemma update_port_ports_ok (p : nat) (f : Port → Port) :
  (∀ q, port_open (f q) = port_open q
        ∧ onDisconnect (f q) = onDisconnect q ∧ onMessage (f q) = onMessage q) →
  preserves ports_ok (update_port p f).
Proof.
  intros Hf w [Hopen Hcur]. split; simpl.
  - intros p' q' Hq' Ho.
    destruct (decide (p = p')) as [->|Hne].
    + rewrite list_lookup_alter_eq in Hq'.
      destruct (ports w !! p') as [q|] eqn:Hq; simplify_eq/=.
      destruct (Hf q) as (Eo & Ed & Em). rewrite Eo in Ho. rewrite Ed, Em.
      by apply Hopen.
    + rewrite list_lookup_alter_ne in Hq' by done. by apply Hopen.
  - intros p' Hp'. specialize (Hcur p' Hp'). unfold is_open in *. simpl.
    destruct (decide (p = p')) as [->|Hne].
    + rewrite list_lookup_alter_eq.
      destruct (ports w !! p') as [q|]; simpl in *; [|done].
      destruct (Hf q) as (Eo & _). by rewrite Eo.
    + by rewrite list_lookup_alter_ne.
Qed.

(** When the companion process closes the channel, the script is left
    without one. *)
Lemma native_disconnect_closed (p : nat) (w : World) :
  ports_ok w → is_open p w = true →
  native_disconnect p w = onNMHDisconnect (set_ports (alter close p (ports w)) w).
Proof.
  intros [Hopen _] Ho. unfold is_open in Ho. unfold native_disconnect, bind, read.
  destruct (ports w !! p) as [q|] eqn:Hq; [|done].
  rewrite Ho. destruct (Hopen p q Hq Ho) as (_ & -> & _).
  reflexivity.
Qed.

Lemma native_disconnect_ignored (p : nat) (w : World) :
  is_open p w = false → native_disconnect p w = (Ok tt, w).
Proof.
  unfold is_open, native_disconnect, bind, read.
  destruct (ports w !! p) as [q|]; [|done]. by intros ->.
Qed.

Lemma native_disconnect_ports_ok (p : nat) : preserves ports_ok (native_disconnect p).
Proof.
  intros w Hw. destruct (is_open p w) eqn:Ho.
  - rewrite native_disconnect_closed by done. simpl.
    apply all_closed_ports_ok; [done|]. simpl.
    destruct Hw as [Hopen Hcur]. unfold is_open in Ho.
    destruct (ports w !! p) as [q|] eqn:Hq; [|done].
    destruct (Hopen p q Hq Ho) as (Hn & _).
    pose proof (released_closed w (conj Hopen Hcur)) as Hr.
    unfold released in Hr. by rewrite Hn in Hr.
  - by rewrite native_disconnect_ignored.
Qed.

Lemma reload_ports_ok (w : World) : ports_ok (reload w).
Proof.
  apply all_closed_ports_ok; [done|]. intros p q. simpl.
  rewrite list_lookup_fmap. destruct (ports w !! p); by intros [= <-].
Qed.

Ltac ports_leaf :=
  idtac;
  lazymatch goal with
  | |- preserves _ (connectToNMH _) => apply connectToNMH_ports_ok
  | |- preserves _ (native_disconnect _) => apply native_disconnect_ports_ok
  | |- preserves _ (update_port _ _) => apply update_port_ports_ok; done
  | |- preserves _ (updateContextMenu _) => by intros ? ?
  end.

Lemma tick_ports_ok : preserves ports_ok tick.
Proof. preserve ports_leaf. Qed.

Lemma step_ports_ok (e : Event) : preserves ports_ok (step e).
Proof.
  destruct e; unfold step;
    try (apply preserves_modify; intros w Hw; first [exact Hw | by destruct url]).
  all: try solve [preserve ports_leaf].
  - apply preserves_modify. intros w _. apply reload_ports_ok.
  - destruct url; preserve ports_leaf.
  - apply preserves_modify. intros w Hw. by case_decide.
  - apply preserves_modify. intros w. apply preserves_elapse, tick_ports_ok.
Qed.

Lemma reachable_ports_ok (evs : list Event) : ports_ok (run evs fresh).
Proof.
  apply preserves_run; [apply step_ports_ok|].
  apply all_closed_ports_ok; [done | by intros p q].
Qed.

(** * Messages from the companion process *)

Lemma field_string_object (k : string) (v : JsValue) (s : string) :
  field k v = JStr s → ∃ fields, v = JObj fields.
Proof. destruct v; try discriminate. eauto. Qed.

(** A message whose [type] is a string is handled by its [type] alone. *)
Lemma handleNMHMessage_typed (message : JsValue) (t : string) :
  field "type" message = JStr t →
  handleNMHMessage message =
    if String.eqb t "connected" then
      if is_true (field "data" message)
      then sendMessageToNMH DEVICES_REQUEST ;; ret tt
      else ret tt
    else if String.eqb t "devices" then
      storage_set [("devices", field "data" message); ("connected", JBool true)] ;;
      updateContextMenu None
    else console LogWarn "Unknown message type received: " [JStr t].
Proof.
  intros Ht. destruct (field_string_object _ _ _ Ht) as [fields ->].
  unfold handleNMHMessage, get_prop. cbn [truthy negb bind ret].
  rewrite Ht. cbn [typeof String.eqb is_string]. reflexivity.
Qed.

(** A message that is falsy, or whose [type] is not a string, is reported
    and nothing else happens. *)
Lemma handleNMHMessage_invalid (message : JsValue) (w : World) :
  truthy message = false ∨ typeof (field "type" message) ≠ "string" →
  handleNMHMessage message w
  = (Ok tt, set_trace (Console LogError "Invalid message received from NMH." [] :: trace w) w).
Proof.
  intros [Hf|Ht]; unfold handleNMHMessage, bind.
  - by rewrite Hf.
  - destruct (truthy message) eqn:Hm; [|done]. simpl.
    assert (get_prop message "type" w = (Ok (field "type" message), w)) as ->.
    { by destruct message. }
    simpl. destruct (String.eqb_spec (typeof (field "type" message)) "string"); done.
Qed.

Lemma handleNMHMessage_unknown (message : JsValue) (t : string) (w : World) :
  field "type" message = JStr t → t ≠ "connected" → t ≠ "devices" →
  handleNMHMessage message w
  = (Ok tt, set_trace (Console LogWarn "Unknown message type received: " [JStr t] :: trace w) w).
Proof.
  intros Ht Hc Hd. rewrite (handleNMHMessage_typed _ _ Ht).
  destruct (String.eqb_spec t "connected"); [done|].
  destruct (String.eqb_spec t "devices"); done.
Qed.

Lemma is_true_false (v : JsValue) : v ≠ JBool true → is_true v = false.
Proof. destruct v as [| |[]| | | |]; done. Qed.

Lemma handleNMHMessage_connected_other (message : JsValue) (w : World) :
  field "type" message = JStr "connected" → field "data" message ≠ JBool true →
  handleNMHMessage message w = (Ok tt, w).
Proof.
  intros Ht Hd. rewrite (handleNMHMessage_typed _ _ Ht). simpl.
  by rewrite is_true_false.
Qed.

Lemma handleNMHMessage_devices (message : JsValue) (w : World) :
  field "type" message = JStr "devices" →
  handleNMHMessage message w
  = (storage_set [("devices", field "data" message); ("connected", JBool true)] ;;
     updateContextMenu None) w.
Proof. intros Ht. by rewrite (handleNMHMessage_typed _ _ Ht). Qed.

(** With a channel that is open, the request goes out on it. *)
Lemma sendMessageToNMH_open (m : JsValue) (p : nat) (w : World) :
  nmhPort w = Some p → is_open p w = true →
  sendMessageToNMH m w
  = (Ok true, set_ports (alter (push m) p (ports w))
                (set_trace (PostMessage p m :: trace w) w)).
Proof.
  intros Hp Ho. unfold sendMessageToNMH, bind, read. rewrite Hp.
  unfold try_catch, postMessage, bind, read, emit, modify.
  cbn [fst snd]. 
  assert (is_open p (set_trace (PostMessage p m :: trace w) w) = true) as -> by done.
  reflexivity.
Qed.

Lemma handleNMHMessage_connected (message : JsValue) (p : nat) (w : World) :
  field "type" message = JStr "connected" → field "data" message = JBool true →
  nmhPort w = Some p → is_open p w = true →
  handleNMHMessage message w
  = (Ok tt, set_ports (alter (push DEVICES_REQUEST) p (ports w))
              (set_trace (PostMessage p DEVICES_REQUEST :: trace w) w)).
Proof.
  intros Ht Hd Hp Ho. rewrite (handleNMHMessage_typed _ _ Ht). simpl.
  rewrite Hd. simpl. unfold bind. by rewrite (sendMessageToNMH_open _ p).
Qed.

(** * The debounced menu rebuild *)

(** One rebuild: the menu is derived anew from the current URL, and the
    failure path is never taken since the menu has just been emptied. *)
Lemma rebuildContextMenu_spec (w : World) :
  let w' := (rebuildContextMenu w).2 in
  menus w' = expected_menu (current_url w)
  ∧ rebuilds (trace w') = S (rebuilds (trace w))
  ∧ timers w' = timers w ∧ now w' = now w
  ∧ updateContextMenuTimeout w' = updateContextMenuTimeout w
  ∧ tabs w' = tabs w ∧ active_tab w' = active_tab w.
Proof.
  unfold rebuildContextMenu, try_catch, bind, expected_menu, current_url.
  cbn [menus_removeAll tabs_query_active emit modify read bind fst snd].
  cbn [active_tab tabs set_menus set_trace].
  destruct (active_tab w) as [i|] eqn:Ha; [destruct (tabs w !! i) as [url|]|];
    cbn [head mbind option_bind tab_url default]; unfold id;
    match goal with |- context [Background.isSpecialUrl ?u] =>
      destruct (Background.isSpecialUrl u) end;
    repeat split; first [reflexivity | exact Ha].
Qed.

(** [sendMessageToNMH] reports a failure by its result, never by throwing. *)
Lemma sendMessageToNMH_returns (m : JsValue) (w : World) :
  ∃ b, (sendMessageToNMH m w).1 = Ok b.
Proof.
  unfold sendMessageToNMH, bind, read. destruct (nmhPort w) as [p|]; [|by exists false].
  unfold try_catch, postMessage, bind, read, emit, modify. cbn [fst snd].
  destruct (is_open p _); [by exists true | by exists false].
Qed.

(** No message whatsoever makes [handleNMHMessage] throw. *)
Lemma handleNMHMessage_returns (message : JsValue) (w : World) :
  (handleNMHMessage message w).1 = Ok tt.
Proof.
  destruct (truthy message) eqn:Hm;
    [|by rewrite handleNMHMessage_invalid by (by left)].
  destruct (field "type" message) as [| | | |t| |] eqn:Ht;
    try by rewrite handleNMHMessage_invalid by (right; by rewrite Ht).
  rewrite (handleNMHMessage_typed _ _ Ht).
  destruct (String.eqb t "connected"); [|by destruct (String.eqb t "devices")].
  destruct (is_true _); [|done]. unfold bind.
  destruct (sendMessageToNMH_returns DEVICES_REQUEST w) as [b Hb].
  destruct (sendMessageToNMH _ w) as [[b'|e] w']; by simplify_eq/=.
Qed.

(** Two worlds are equal when their fields are. *)
Ltac world_eq :=
  unfold set_nmhPort, set_updateContextMenuTimeout, set_ports, set_storage,
    set_now, set_timers, set_next_timer, set_menus, set_tabs, set_active_tab,
    set_trace in *;
  simpl in *; subst; rewrite ?filter_nil; f_equal; try lia.

(** While nothing is pending, time just passes. *)
Lemma elapse_idle (ms : nat) (w : World) :
  timers w = [] → elapse ms w = set_now (now w + ms) w.
Proof.
  revert w. induction ms as [|n IH]; intros w Hw.
  - destruct w. by world_eq.
  - cbn [elapse]. unfold tick, bind, modify, read. simpl. rewrite Hw. simpl.
    rewrite IH by done. destruct w. by world_eq.
Qed.

(** Before the pending timer is due, time just passes as well. *)
Lemma elapse_quiet (ms : nat) (w : World) (t : nat * nat) :
  timers w = [t] → now w + ms < t.2 → elapse ms w = set_now (now w + ms) w.
Proof.
  revert w. induction ms as [|n IH]; intros w Hw Hlt.
  - destruct w. by world_eq.
  - cbn [elapse]. unfold tick, bind, modify, read. simpl. rewrite Hw.
    rewrite filter_cons_False by (simpl; lia).
    rewrite filter_cons_True by (simpl; lia). rewrite !filter_nil. simpl.
    rewrite IH; [| done | simpl; lia].
    destruct w. by world_eq.
Qed.

(** Once the delay has passed, the pending timer has fired, once. *)
Lemma elapse_fire (ms : nat) (w : World) (t : nat * nat) :
  timers w = [t] → now w < t.2 → t.2 ≤ now w + ms →
  elapse ms w
  = set_now (now w + ms) (rebuildContextMenu (set_timers [] (set_now t.2 w))).2.
Proof.
  revert w. induction ms as [|n IH]; intros w Hw Hlo Hhi; [lia|].
  cbn [elapse]. destruct (decide (t.2 = S (now w))) as [Heq|Hne].
  - unfold tick, bind, modify, read. simpl. rewrite Hw.
    rewrite filter_cons_True by (simpl; lia).
    rewrite filter_cons_False by (simpl; lia). rewrite !filter_nil.
    cbn [dispatch]. rewrite Heq.
    destruct (rebuildContextMenu_spec
                (set_timers [] (set_now (S (now w)) w))) as (_ & _ & Ht & Hn & _).
    destruct (rebuildContextMenu _) as [[[]|e] w'] eqn:Hr; simpl in *.
    + rewrite elapse_idle by done. rewrite Hn. f_equal; lia.
    + rewrite elapse_idle by done. rewrite Hn. f_equal; lia.
  - replace (tick w).2 with (set_now (S (now w)) w).
    + rewrite IH; [| done | simpl; lia | simpl; lia].
      cbn [now set_now]. by replace (S (now w) + n) with (now w + S n) by lia.
    + unfold tick, bind, modify, read. simpl. rewrite Hw.
      rewrite filter_cons_False by (simpl; lia).
      rewrite filter_cons_True by (simpl; lia). rewrite !filter_nil. simpl.
      destruct w. by world_eq.
Qed.

Lemma pending_timers_ok (w : World) : pending w → timers_ok w.
Proof. intros (id & Ht & Hh). unfold timers_ok. by rewrite Ht. Qed.

Lemma trigger_pending (w : World) :
  timers_ok w →
  let w' := (updateContextMenu None w).2 in
  pending w' ∧ trace w' = SetTimeout (next_timer w) 250
                            :: ClearTimeout (updateContextMenuTimeout w) :: trace w
  ∧ tabs w' = tabs w ∧ active_tab w' = active_tab w.
Proof.
  intros Hw. destruct (updateContextMenu_timers None w Hw) as [Ht Hh].
  split; [|done]. exists (next_timer w). by rewrite Ht, Hh.
Qed.

Lemma retrigger_pending (x : Trigger) (w : World) :
  pending w → gap x < 250 →
  pending (retrigger x w)
  ∧ rebuilds (trace (retrigger x w)) = rebuilds (trace w)
  ∧ tabs (retrigger x w) = tabs_then x ∧ active_tab (retrigger x w) = active_then x.
Proof.
  intros (id & Ht & Hh) Hg. unfold retrigger.
  rewrite (elapse_quiet _ _ _ Ht) by (simpl; lia).
  set (w1 := set_active_tab _ _).
  assert (timers_ok w1) as H1 by (unfold timers_ok; simpl; by rewrite Ht).
  destruct (trigger_pending w1 H1) as (Hp & Htr & Htb & Hac).
  split; [done|]. split; [by rewrite Htr|]. split; [by rewrite Htb | by rewrite Hac].
Qed.

Lemma burst_pending (xs : list Trigger) (w : World) :
  pending w → Forall (fun x => gap x < 250) xs →
  pending (burst xs w) ∧ rebuilds (trace (burst xs w)) = rebuilds (trace w).
Proof.
  revert w. induction xs as [|x xs IH]; intros w Hw Hxs; [done|].
  apply Forall_cons in Hxs as [Hx Hxs]. simpl.
  destruct (retrigger_pending x w Hw Hx) as (Hp & Hr & _).
  destruct (IH _ Hp Hxs) as [Hp' Hr']. split; [done | congruence].
Qed.

Lemma timers_set_now (t : nat) (w : World) : timers (set_now t w) = timers w.
Proof. reflexivity. Qed.

Lemma trace_set_now (t : nat) (w : World) : trace (set_now t w) = trace w.
Proof. reflexivity. Qed.

Lemma menus_set_now (t : nat) (w : World) : menus (set_now t w) = menus w.
Proof. reflexivity. Qed.

(** Once the delay has passed after a trigger, its rebuild has run, once,
    on the tabs as they were. *)
Lemma pending_fires (d : nat) (w : World) :
  pending w → 250 ≤ d →
  let w' := elapse d w in
  timers w' = [] ∧ rebuilds (trace w') = S (rebuilds (trace w))
  ∧ menus w' = expected_menu (current_url w).
Proof.
  intros (id & Ht & Hh) Hd.
  rewrite (elapse_fire _ _ _ Ht) by (simpl; lia).
  cbv zeta. rewrite timers_set_now, trace_set_now, menus_set_now.
  change ((id, now w + 250).2) with (now w + 250).
  destruct (rebuildContextMenu_spec (set_timers [] (set_now (now w + 250) w)))
    as (Hm & Hr & Htm & _).
  by rewrite Hm, Hr, Htm.
Qed.

(** While the pending timer is not due, changes of the tabs leave it
    pending and make the script do nothing. *)
Lemma changes_quiet (cs : list Change) (w : World) (t : nat * nat) :
  timers w = [t] → now w + span cs < t.2 →
  timers (changes cs w) = [t] ∧ now (changes cs w) = now w + span cs
  ∧ trace (changes cs w) = trace w.
Proof.
  revert w. induction cs as [|c cs IH]; intros w Ht Hlt.
  - cbn [changes foldl span]. by rewrite Nat.add_0_r.
  - cbn [span] in Hlt. cbn [changes foldl]. fold (changes cs (change c w)).
    unfold change. rewrite (elapse_quiet _ _ _ Ht) by lia.
    set (w1 := set_active_tab _ _).
    destruct (IH w1) as (Ht' & Hn' & Htr'); [exact Ht | simpl; lia |].
    split; [done|]. split; [rewrite Hn'; cbn [span]; simpl; lia | by rewrite Htr'].
Qed.

Lemma span_take (k : nat) (cs : list Change) : span (take k cs) ≤ span cs.
Proof.
  revert k. induction cs as [|c cs IH]; intros [|k]; simpl; try lia.
  specialize (IH k). lia.
Qed.

(** The pending timer fires once the delay has passed since the trigger,
    and the rebuild finds the tabs as they are then. *)
Lemma pending_changes_fire (cs : list Change) (d : nat) (w : World) :
  pending w → span cs < 250 → 250 ≤ span cs + d →
  let w' := elapse d (changes cs w) in
  timers w' = [] ∧ rebuilds (trace w') = S (rebuilds (trace w))
  ∧ menus w' = expected_menu (current_url (changes cs w)).
Proof.
  intros (id & Ht & Hh) Hlo Hhi.
  destruct (changes_quiet cs w _ Ht) as (Ht2 & Hn2 & Htr2); [simpl; lia|].
  cbv zeta. rewrite (elapse_fire _ _ _ Ht2) by (simpl; lia).
  rewrite timers_set_now, trace_set_now, menus_set_now.
  change ((id, now w + 250).2) with (now w + 250).
  destruct (rebuildContextMenu_spec
              (set_timers [] (set_now (now w + 250) (changes cs w))))
    as (Hm & Hr & Htm & _).
  rewrite Hm, Hr, Htm. split; [done|]. split; [|done].
  change (trace (set_timers [] (set_now (now w + 250) (changes cs w))))
    with (trace (changes cs w)). by rewrite Htr2.
Qed.

(** * The claims of the specification *)

(** ** URL classification *)

(** C1 (the code departs from the claim).  The popup classifies an
    undefined and an empty URL as special, as the claim says.  The
    background script, which repeats the test in place, classifies both as
    not special: for a tab without a URL [updateIconState] enables the
    toolbar icon, and the menu rebuild creates the share entry. *)
Theorem background_falsy_url_not_special (tabId : nat) (w : World) :
  Popup.isSpecialUrl None = true ∧ Popup.isSpecialUrl (Some "") = true
  ∧ Background.isSpecialUrl None = false ∧ Background.isSpecialUrl (Some "") = false
  ∧ updateIconState tabId None w = (Ok tt, set_trace (ActionEnable tabId :: trace w) w)
  ∧ menus (rebuildContextMenu (set_active_tab None w)).2 = [SHARE_ENTRY].
Proof. repeat split; reflexivity. Qed.

(** ** The channel *)

Lemma ports_ok_channel (w : World) :
  ports_ok w →
  match nmhPort w with
  | Some _ => one_channel w
  | None => no_channel w
  end.
Proof.
  intros [Hopen Hcur]. destruct (nmhPort w) as [p|] eqn:Hp.
  - specialize (Hcur p eq_refl). unfold is_open in Hcur.
    destruct (ports w !! p) as [q|] eqn:Hq; [|done].
    destruct (Hopen p q Hq Hcur) as (_ & Hd & Hm).
    exists p, q. repeat split; try done.
    intros p' q' Hq' Ho'. destruct (Hopen p' q' Hq' Ho') as [? _]. congruence.
  - split; [done|]. intros p q Hq. destruct (port_open q) eqn:Ho; [|done].
    by destruct (Hopen p q Hq Ho) as [? _].
Qed.

Lemma connects_ports_ok (oks : list bool) (w : World) :
  ports_ok w → ports_ok (connects oks w).
Proof.
  revert w. induction oks as [|ok oks IH]; intros w Hw; [done|].
  simpl. by apply IH, connectToNMH_ports_ok.
Qed.

Lemma connects_snoc (oks : list bool) (ok : bool) (w : World) :
  connects (oks ++ [ok]) w = (connectToNMH ok (connects oks w)).2.
Proof. unfold connects. by rewrite foldl_app. Qed.

(** C2, as the claim has it, fails: of two calls in succession let the
    second find that the channel cannot be opened; no channel is active
    afterwards. *)
Lemma connect_failure_leaves_no_channel :
  ¬ one_channel (connects [true; false] fresh).
Proof. intros (p & q & Hp & _). discriminate. Qed.

(** C2, amended.  After every sequence of calls to [connectToNMH], made in
    any state the script can be in, the outcome of the last call decides:
    if the channel could be opened, exactly one channel is active and it
    carries exactly one disconnect and one message listener; if not, none
    is active.  Listeners never accumulate. *)
Theorem connect_leaves_one_channel (evs : list Event) (oks : list bool) (ok : bool) :
  let w := connects (oks ++ [ok]) (run evs fresh) in
  if ok then one_channel w else no_channel w.
Proof.
  intros w. subst w. rewrite connects_snoc.
  pose proof (connects_ports_ok oks _ (reachable_ports_ok evs)) as Hw.
  pose proof (ports_ok_channel _ (connectToNMH_ports_ok ok _ Hw)) as Hc.
  destruct ok.
  - destruct (connectToNMH_opened (connects oks (run evs fresh))) as [_ Hn].
    by rewrite Hn in Hc.
  - destruct (connectToNMH_failed (connects oks (run evs fresh))) as [_ Hn].
    by rewrite Hn in Hc.
Qed.

(** ** The message router *)

(** C3.  A [share] message from a tab is not forwarded: no message is
    posted and the ports stay as they were.  From a privileged context,
    with a channel at hand, the very message received is what is posted on
    it, once; on an open channel it reaches the companion process. *)
Theorem share_forwarded_from_privileged_only
    (message : JsValue) (sender : MessageSender) (w : World) :
  field "type" message = JStr "share" →
  let w' := (handleRuntimeMessage message sender w).2 in
  match sender_tab sender with
  | Some _ => posts (trace w') = posts (trace w) ∧ ports w' = ports w
  | None =>
      ∀ p, nmhPort w = Some p →
           posts (trace w') = (p, message) :: posts (trace w)
           ∧ (is_open p w = true → ports w' = alter (push message) p (ports w))
  end.
Proof.
  intros Ht. destruct (field_string_object _ _ _ Ht) as [fields ->].
  unfold handleRuntimeMessage, get_prop, bind, console, emit, modify, ret.
  cbn [typeof is_null fst snd]. rewrite String.eqb_refl. cbn [negb orb].
  rewrite Ht. cbn [is_string]. rewrite String.eqb_refl.
  destruct (sender_tab sender) as [t|]; [done|].
  intros p Hp. unfold sendMessageToNMH, bind, read. cbn [nmhPort set_trace].
  rewrite Hp. unfold try_catch, postMessage, bind, read, emit, modify, ret.
  cbn [fst snd].
  change (is_open p (set_trace _ (set_trace _ w))) with (is_open p w).
  destruct (is_open p w); [done|]. split; [done | discriminate].
Qed.

(** ** Loss of the channel *)

Lemma onNMHDisconnect_resets (w : World) :
  let w' := (onNMHDisconnect w).2 in
  nmhPort w' = None
  ∧ storage_get ["devices"; "connected"] w'
    = {[ "devices" := JArr []; "connected" := JBool false ]}.
Proof.
  split; [done|].
  apply (storage_get_written (JArr []) (JBool false)
           (set_trace (StorageSet DISCONNECTED :: trace w) (set_nmhPort None w))).
Qed.

(** C4.  When the companion process closes the channel, the script's
    listener on it clears [nmhPort], and what a reader of the shared
    record then gets is exactly [{devices: [], connected: false}],
    whatever was stored before; the same holds when an attempt to open
    the channel fails. *)
Theorem channel_loss_resets_record (w : World) :
  (∀ p q, ports w !! p = Some q → port_open q = true →
          onDisconnect q = [OnNMHDisconnect] →
          let w' := (step (NativeDisconnect p) w).2 in
          nmhPort w' = None
          ∧ storage_get ["devices"; "connected"] w'
            = {[ "devices" := JArr []; "connected" := JBool false ]})
  ∧ (let w' := (connectToNMH false w).2 in
     nmhPort w' = None
     ∧ storage_get ["devices"; "connected"] w'
       = {[ "devices" := JArr []; "connected" := JBool false ]}).
Proof.
  split.
  - intros p q Hq Ho Hd. unfold step, native_disconnect, bind, read.
    rewrite Hq, Ho, Hd. apply (onNMHDisconnect_resets (set_ports _ w)).
  - split; [apply connectToNMH_failed|].
    unfold connectToNMH, try_catch, bind. simpl.
    destruct (nmhPort w); apply storage_get_written.
Qed.

(** In every state the script can be in, an open port is the channel and
    has the script's listener on it, so that the first half of the claim
    applies whenever the channel disconnects. *)
Lemma reachable_open_port (evs : list Event) (p : nat) (q : Port) :
  ports (run evs fresh) !! p = Some q → port_open q = true →
  nmhPort (run evs fresh) = Some p
  ∧ onDisconnect q = [OnNMHDisconnect] ∧ onMessage q = [HandleNMHMessage].
Proof. apply reachable_ports_ok. Qed.

(** ** The shared record *)








(** ** Inbound messages *)

(** C6.  Handling [{type: 'devices', data: [d1, d2]}] returns normally,
    makes exactly one write, of [{devices: [d1, d2], connected: true}],
    after which a reader of the shared record gets exactly that, and
    triggers the menu refresh exactly once: one timer is cancelled and one
    is set, with the default delay. *)
Theorem devices_message_stored (d1 d2 message : JsValue) (w : World) :
  field "type" message = JStr "devices" →
  field "data" message = JArr [d1; d2] →
  let r := handleNMHMessage message w in
  r.1 = Ok tt
  ∧ storage_get ["devices"; "connected"] r.2
    = {[ "devices" := JArr [d1; d2]; "connected" := JBool true ]}
  ∧ trace r.2
    = SetTimeout (next_timer w) 250
        :: ClearTimeout (updateContextMenuTimeout w)
        :: StorageSet [("devices", JArr [d1; d2]); ("connected", JBool true)]
        :: trace w.
Proof.
  intros Ht Hd. rewrite (handleNMHMessage_devices _ _ Ht), Hd.
  split; [done|]. split; [|done].
  rewrite <- (storage_get_written (JArr [d1; d2]) (JBool true) w).
  by apply storage_get_ext.
Qed.

(** C7, as the claim has it, fails: the data of a [devices] message is
    stored whatever its shape, here a string, and the record then says
    connected. *)
Lemma malformed_devices_stored :
  ¬ recognised MALFORMED_DEVICES ∧ ¬ logged_and_dropped MALFORMED_DEVICES fresh.
Proof.
  split.
  - intros [[[=] _]|[_ [ds [=]]]].
  - intros (_ & _ & Hs). apply (f_equal (fun m => m !! "connected")) in Hs. done.
Qed.

(** C7, amended.  A message that is falsy or whose [type] is not a string,
    and a message whose [type] is a string other than ['connected'] and
    ['devices'], is logged and dropped: one log line, nothing else changes.
    No message makes the handler throw.  The data of the two known types is not validated: a
    ['connected'] message whose data is not [true] is dropped without a
    log line, and a ['devices'] message has its data stored as it is. *)
Theorem unknown_message_dropped (message : JsValue) (w : World) :
  (handleNMHMessage message w).1 = Ok tt
  ∧ (truthy message = false ∨ typeof (field "type" message) ≠ "string" →
   handleNMHMessage message w
   = (Ok tt, set_trace (Console LogError "Invalid message received from NMH." []
                          :: trace w) w))
  ∧ (∀ t, field "type" message = JStr t → t ≠ "connected" → t ≠ "devices" →
          handleNMHMessage message w
          = (Ok tt, set_trace (Console LogWarn "Unknown message type received: "
                                 [JStr t] :: trace w) w))
  ∧ (field "type" message = JStr "connected" → field "data" message ≠ JBool true →
     handleNMHMessage message w = (Ok tt, w))
  ∧ (field "type" message = JStr "devices" →
     let r := handleNMHMessage message w in
     r.1 = Ok tt
     ∧ storage r.2 !! "devices" = Some (field "data" message)
     ∧ storage r.2 !! "connected" = Some (JBool true)).
Proof.
  split; [apply handleNMHMessage_returns|].
  split; [apply handleNMHMessage_invalid|].
  split; [intros t; apply handleNMHMessage_unknown|].
  split; [apply handleNMHMessage_connected_other|].
  intros Ht. rewrite (handleNMHMessage_devices _ _ Ht).
  split; [done|]. split; [apply stored_devices | apply stored_connected].
Qed.

(** C8.  In every state the script can be in, a message
    [{type: 'connected', data: true}] arriving on an open port makes the
    script post exactly one message, [{type: 'devices'}], on that port,
    which the companion process receives. *)
Theorem connected_requests_devices (evs : list Event) (p : nat) (message : JsValue) :
  let w := run evs fresh in
  is_open p w = true →
  field "type" message = JStr "connected" →
  field "data" message = JBool true →
  let r := step (NativeMessage p message) w in
  r.1 = Ok tt
  ∧ posts (trace r.2) = (p, DEVICES_REQUEST) :: posts (trace w)
  ∧ ports r.2 = alter (push DEVICES_REQUEST) p (ports w).
Proof.
  intros w Ho Ht Hd. pose proof (reachable_ports_ok evs) as [Hopen _].
  fold w in Hopen. pose proof Ho as Ho'. unfold is_open in Ho'.
  destruct (ports w !! p) as [q|] eqn:Hq; [|done].
  destruct (Hopen p q Hq Ho') as (Hp & _ & Hm).
  unfold step, native_message, bind, read. rewrite Hq, Ho', Hm.
  cbn [dispatch run_message_listener].
  by rewrite (handleNMHMessage_connected _ p w Ht Hd Hp Ho).
Qed.

(** C10.  A ['connected'] message whose data is anything but [true] leaves
    the whole world as it was: nothing is sent, nothing is stored, and
    [nmhPort] keeps the channel. *)
Theorem connected_without_true_ignored (message : JsValue) (w : World) :
  field "type" message = JStr "connected" →
  field "data" message ≠ JBool true →
  handleNMHMessage message w = (Ok tt, w).
Proof.
  intros Ht Hd. rewrite (handleNMHMessage_typed _ _ Ht).
  change (String.eqb "connected" "connected") with true. cbv iota.
  destruct (field "data" message) as [| |[|]| | | |]; try reflexivity.
  by destruct Hd.
Qed.

(** ** Debouncing *)

(** C9, as the claim has it, fails: the rebuild does not use the state
    current at the last trigger.  A tab on an internal page is activated,
    which is a trigger; before the delay has passed the tab is closed, of
    which the script does not hear.  The one rebuild that runs asks for the
    active tab when it runs, finds none, and creates the share entry, where
    the page of the last trigger would have had none. *)
Lemma rebuild_uses_state_when_it_runs :
  let w1 := run [TabCreated 1 (Some "about:blank"); TabActivated 1] fresh in
  let w2 := run [TabRemoved 1; Elapsed 250] w1 in
  length (timers w1) = 1 ∧ rebuilds (trace w1) = 0 ∧ rebuilds (trace w2) = 1
  ∧ expected_menu (current_url w1) = []
  ∧ menus w2 = [SHARE_ENTRY]
  ∧ menus w2 ≠ expected_menu (current_url w1).
Proof. vm_compute. repeat split; discriminate. Qed.

(** C9, amended.  Take any state the script can be in, a first trigger,
    any number of further triggers, each less than the delay after the one
    before, and after the last of them any changes of the tabs that trigger
    nothing, all within the delay.  At most one timer is pending before,
    exactly one after each trigger and through the changes, and none once
    the delay has passed after the last trigger; no rebuild runs before and
    exactly one has run by then.  It uses the tabs as they are when it
    runs, which the callback asks for itself: these are the tabs of the
    last trigger only where the URL of the active tab has not changed
    since. *)
Theorem debounce_runs_one_rebuild
    (evs : list Event) (xs : list Trigger) (cs : list Change) (d : nat) :
  Forall (fun x => gap x < 250) xs →
  span cs < 250 → 250 ≤ span cs + d →
  let w0 := run evs fresh in
  let w1 := burst xs (updateContextMenu None w0).2 in
  let w2 := changes cs w1 in
  let w3 := elapse d w2 in
  length (timers w0) ≤ 1
  ∧ (∀ k, length (timers (burst (take k xs) (updateContextMenu None w0).2)) = 1)
  ∧ (∀ k, length (timers (changes (take k cs) w1)) = 1)
  ∧ timers w3 = []
  ∧ rebuilds (trace w2) = rebuilds (trace w0)
  ∧ rebuilds (trace w3) = S (rebuilds (trace w0))
  ∧ menus w3 = expected_menu (current_url w2)
  ∧ (current_url w2 = current_url w1 → menus w3 = expected_menu (current_url w1)).
Proof.
  intros Hxs Hlo Hhi w0 w1 w2 w3.
  pose proof (reachable_timers_ok evs) as H0. fold w0 in H0.
  destruct (trigger_pending w0 H0) as (Hp & Htr & _).
  destruct (burst_pending xs _ Hp Hxs) as [Hp1 Hr1]. fold w1 in Hp1, Hr1.
  destruct (pending_changes_fire cs d w1 Hp1 Hlo Hhi) as (Ht3 & Hr3 & Hm3).
  fold w2 in Ht3, Hr3, Hm3. fold w3 in Ht3, Hr3, Hm3.
  assert (rebuilds (trace w1) = rebuilds (trace w0)) as Hr.
  { rewrite Hr1, Htr. done. }
  destruct Hp1 as (id & Ht1 & Hh1).
  split; [by apply timers_ok_length|]. split.
  { intros k. destruct (burst_pending (take k xs) _ Hp) as [(id' & Ht & _) _].
    - by apply Forall_take.
    - by rewrite Ht. }
  split.
  { intros k. pose proof (span_take k cs) as Hk.
    destruct (changes_quiet (take k cs) w1 _ Ht1) as (Ht & _); [simpl; lia|].
    by rewrite Ht. }
  split; [done|]. split.
  { destruct (changes_quiet cs w1 _ Ht1) as (_ & _ & Htr2); [simpl; lia|].
    unfold w2. by rewrite Htr2. }
  split; [congruence|]. split; [done|]. intros Hu. by rewrite <- Hu.
Qed.


(** * The theorems at work on concrete runs *)

(** The popup shares a page once the extension is installed and connected. *)
Lemma share_forwarded_witness :
  let w := run [Installed true] fresh in
  posts (trace (handleRuntimeMessage EXAMPLE_SHARE (mkSender None) w).2)
  = [(0, EXAMPLE_SHARE)]
  ∧ posts (trace (handleRuntimeMessage EXAMPLE_SHARE
                    (mkSender (Some (mkTab 3 (Some "https://example.com")))) w).2)
    = [].
Proof.
  split.
  - destruct (share_forwarded_from_privileged_only
                EXAMPLE_SHARE (mkSender None) (run [Installed true] fresh)
                eq_refl 0 eq_refl) as [H _].
    exact H.
  - destruct (share_forwarded_from_privileged_only
                EXAMPLE_SHARE (mkSender (Some (mkTab 3 (Some "https://example.com"))))
                (run [Installed true] fresh) eq_refl) as [H _].
    exact H.
Defined.

(** The companion process dies while two devices are on record. *)
Lemma channel_loss_witness :
  let w := run [Installed true; NativeMessage 0 EXAMPLE_DEVICES] fresh in
  nmhPort (step (NativeDisconnect 0) w).2 = None
  ∧ storage_get ["devices"; "connected"] (step (NativeDisconnect 0) w).2
    = {[ "devices" := JArr []; "connected" := JBool false ]}.
Proof.
  destruct (channel_loss_resets_record
              (run [Installed true; NativeMessage 0 EXAMPLE_DEVICES] fresh))
    as [H _].
  exact (H 0 CHANNEL eq_refl eq_refl eq_refl).
Defined.

Lemma devices_message_witness :
  storage_get ["devices"; "connected"]
    (handleNMHMessage EXAMPLE_DEVICES (run [Installed true] fresh)).2
  = {[ "devices" := JArr [JStr "d1"; JStr "d2"]; "connected" := JBool true ]}.
Proof.
  destruct (devices_message_stored (JStr "d1") (JStr "d2") EXAMPLE_DEVICES
              (run [Installed true] fresh) eq_refl eq_refl) as (_ & H & _).
  exact H.
Defined.

(** A message without a [type], one of a type of a later protocol version,
    and a refusal. *)
Lemma unknown_message_witness :
  handleNMHMessage (JObj [("data", JBool true)]) fresh
  = (Ok tt, set_trace [Console LogError "Invalid message received from NMH." []] fresh)
  ∧ handleNMHMessage (JObj [("type", JStr "battery")]) fresh
    = (Ok tt, set_trace [Console LogWarn "Unknown message type received: "
                           [JStr "battery"]] fresh)
  ∧ handleNMHMessage (EXAMPLE_CONNECTED (JBool false)) fresh = (Ok tt, fresh).
Proof.
  split; [|split].
  - destruct (unknown_message_dropped (JObj [("data", JBool true)]) fresh)
      as (_ & H & _).
    apply H. right. discriminate.
  - destruct (unknown_message_dropped (JObj [("type", JStr "battery")]) fresh)
      as (_ & _ & H & _).
    apply (H "battery"); [reflexivity | discriminate | discriminate].
  - destruct (unknown_message_dropped (EXAMPLE_CONNECTED (JBool false)) fresh)
      as (_ & _ & _ & H & _).
    apply H; [reflexivity | discriminate].
Defined.

Lemma connected_requests_devices_witness :
  posts (trace (step (NativeMessage 0 (EXAMPLE_CONNECTED (JBool true)))
                  (run [Installed true] fresh)).2)
  = [(0, DEVICES_REQUEST)].
Proof.
  destruct (connected_requests_devices [Installed true] 0
              (EXAMPLE_CONNECTED (JBool true)) eq_refl eq_refl eq_refl)
    as (_ & H & _).
  exact H.
Defined.

Lemma connected_without_true_witness :
  handleNMHMessage (EXAMPLE_CONNECTED (JBool false)) (run [Installed true] fresh)
  = (Ok tt, run [Installed true] fresh).
Proof.
  apply connected_without_true_ignored; [reflexivity | discriminate].
Defined.

(** Three triggers, 100 ms and 249 ms apart, the last on an internal page;
    100 ms later the focus goes to a window that shows a web page. *)
Lemma debounce_witness :
  let w0 := run [Installed true] fresh in
  let xs := [ mkTrigger 100 {[ 1 := Some "https://example.com" ]} (Some 1);
              mkTrigger 249 {[ 1 := Some "about:blank" ]} (Some 1) ] in
  let cs := [ mkChange 100 {[ 1 := Some "about:blank";
                              2 := Some "https://example.org" ]} (Some 2) ] in
  let w1 := burst xs (updateContextMenu None w0).2 in
  let w3 := elapse 150 (changes cs w1) in
  rebuilds (trace w3) = 1 ∧ menus w3 = [SHARE_ENTRY] ∧ timers w3 = []
  ∧ expected_menu (current_url w1) = [].
Proof.
  intros w0 xs cs w1 w3.
  assert (Forall (fun x => gap x < 250) xs) as Hxs.
  { repeat constructor; simpl; lia. }
  assert (span cs < 250) as Hlo by (simpl; lia).
  assert (250 ≤ span cs + 150) as Hhi by (simpl; lia).
  assert (rebuilds (trace w0) = 0) as H0 by (vm_compute; reflexivity).
  assert (expected_menu (current_url (changes cs w1)) = [SHARE_ENTRY]) as H2
    by (vm_compute; reflexivity).
  destruct (debounce_runs_one_rebuild [Installed true] xs cs 150 Hxs Hlo Hhi)
    as (_ & _ & _ & Ht & _ & Hr & Hm & _).
  fold w0 in Hr. rewrite H0 in Hr. fold w0 w1 in Hm. rewrite H2 in Hm.
  split; [exact Hr|]. split; [exact Hm|]. split; [exact Ht|].
  vm_compute; reflexivity.
Defined.

(** The scenario of the specification, end to end: the extension is
    installed, the channel opens, the companion process announces itself
    and is asked for the devices, its answer is stored, and the menu shows
    the share entry on a web page and nothing on an internal page. *)
Example end_to_end :
  let phone := JObj [("id", JStr "a"); ("name", JStr "Phone");
                     ("type", JStr "phone"); ("share", JBool true)] in
  let session :=
    [ Installed true;
      NativeMessage 0 (EXAMPLE_CONNECTED (JBool true));
      NativeMessage 0 (JObj [("type", JStr "devices"); ("data", JArr [phone])]) ] in
  let on_page url :=
    run (TabCreated 1 (Some url) :: TabActivated 1 :: session ++ [Elapsed 250]) fresh in
  storage_get ["devices"; "connected"] (on_page "https://example.com")
  = {[ "devices" := JArr [phone]; "connected" := JBool true ]}
  ∧ posts (trace (on_page "https://example.com")) = [(0, DEVICES_REQUEST)]
  ∧ menus (on_page "https://example.com") = [SHARE_ENTRY]
  ∧ menus (on_page "about:blank") = [].
Proof. repeat split; vm_compute; reflexivity. Qed.

(** * Further properties of the background script *)

(** ** Sending *)

(** X1.  [sendMessageToNMH] returns [true] exactly when the message has
    reached an open channel.  Without a channel it logs and posts nothing;
    on a channel that turns out closed the failure of [postMessage] is
    caught and logged, and no port changes.  It never throws. *)
Theorem sendMessageToNMH_outcomes (m : JsValue) (w : World) :
  match nmhPort w with
  | None =>
      sendMessageToNMH m w
      = (Ok false,
         set_trace (Console LogError "NMH port is not connected. Message not sent." []
                      :: trace w) w)
  | Some p =>
      if is_open p w then
        sendMessageToNMH m w
        = (Ok true, set_ports (alter (push m) p (ports w))
                      (set_trace (PostMessage p m :: trace w) w))
      else
        sendMessageToNMH m w
        = (Ok false,
           set_trace (Console LogError "Failed to post message to NMH." []
                        :: PostMessage p m :: trace w) w)
  end.
Proof.
  destruct (nmhPort w) as [p|] eqn:Hp.
  - destruct (is_open p w) eqn:Ho; [by apply sendMessageToNMH_open|].
    unfold sendMessageToNMH, bind, read. rewrite Hp.
    unfold try_catch, postMessage, bind, read, emit, modify. cbn [fst snd].
    change (is_open p (set_trace _ w)) with (is_open p w). by rewrite Ho.
  - unfold sendMessageToNMH, bind, read. by rewrite Hp.
Qed.

(** ** What the script leaves alone in the store *)

Lemma storage_set_other (d c : JsValue) (k : string) (v : option JsValue) :
  k ≠ "devices" → k ≠ "connected" →
  preserves (fun w => storage w !! k = v)
            (storage_set [("devices", d); ("connected", c)]).
Proof. intros Hd Hc w Hw. simpl. by rewrite stored_other. Qed.

Ltac other_key_leaf Hd Hc :=
  idtac;
  lazymatch goal with
  | |- preserves _ (storage_set _) => by apply storage_set_other
  | |- preserves _ (updateContextMenu _) => by intros ? ?
  end.

Lemma tick_other_key (k : string) (v : option JsValue) :
  preserves (fun w => storage w !! k = v) tick.
Proof. preserve fail. Qed.

Lemma step_other_key (k : string) (v : option JsValue) (e : Event) :
  k ≠ "devices" → k ≠ "connected" →
  preserves (fun w => storage w !! k = v) (step e).
Proof.
  intros Hd Hc. destruct e; unfold step;
    try (apply preserves_modify; intros w Hw; first [exact Hw | by destruct url]).
  all: try solve [preserve ltac:(other_key_leaf Hd Hc)].
  - destruct url; preserve ltac:(other_key_leaf Hd Hc).
  - apply preserves_modify. intros w Hw. by case_decide.
  - apply preserves_modify. intros w.
    apply (preserves_elapse (fun w => storage w !! k = v)), tick_other_key.
Qed.

(** X2.  The script writes the keys [devices] and [connected] and no
    other: whatever else [storage.local] holds, and whatever happens, every
    other key keeps its value, or stays absent. *)
Theorem other_keys_untouched (evs : list Event) (w : World) (k : string) :
  k ≠ "devices" → k ≠ "connected" →
  storage (run evs w) !! k = storage w !! k.
Proof.
  intros Hd Hc.
  apply (preserves_run (fun w' => storage w' !! k = storage w !! k));
    [intros e; by apply step_other_key | done].
Qed.

(** ** Connection attempts *)

Lemma emit_connect_attempts (n : nat) (c : HostCall) :
  is_connect c = false →
  preserves (fun w => connect_attempts (trace w) = n) (emit c).
Proof.
  intros Hc w Hw. unfold connect_attempts in *. simpl. by rewrite Hc.
Qed.

Ltac attempts_leaf :=
  idtac;
  lazymatch goal with
  | |- preserves _ (emit _) => by apply emit_connect_attempts
  end.

Lemma tick_connect_attempts (n : nat) :
  preserves (fun w => connect_attempts (trace w) = n) tick.
Proof. preserve attempts_leaf. Qed.

(** [connectToNMH] reports a failure in the log and the store, never by
    throwing, and asks the host for a channel exactly once. *)
Lemma connectToNMH_attempt (host_ok : bool) (w : World) :
  (connectToNMH host_ok w).1 = Ok tt
  ∧ connect_attempts (trace (connectToNMH host_ok w).2)
    = S (connect_attempts (trace w)).
Proof.
  unfold connectToNMH, try_catch, bind.
  destruct host_ok; destruct (nmhPort w) eqn:Hp; simpl; rewrite Hp; simpl; done.
Qed.

Lemma initializeState_attempt (host_ok : bool) (w : World) :
  connect_attempts (trace (initializeState host_ok w).2)
  = S (connect_attempts (trace w)).
Proof.
  destruct (connectToNMH_attempt host_ok w) as [Hr Hn].
  unfold initializeState, bind at 1.
  destruct (connectToNMH host_ok w) as [[[]|e] w1]; simpl in *; [|done].
  revert Hn. generalize (S (connect_attempts (trace w))). intros n Hn.
  revert w1 Hn. change (preserves (fun w => connect_attempts (trace w) = n)
    (ts <- tabs_query_active ;;
     match head ts with
     | Some t => updateIconState (tab_id t) (tab_url t)
     | None => ret ()
     end)).
  preserve attempts_leaf.
Qed.

Lemma step_connect_attempts_other (n : nat) (e : Event) :
  is_start e = false →
  preserves (fun w => connect_attempts (trace w) = n) (step e).
Proof.
  intros He. destruct e; try discriminate; unfold step;
    try (apply preserves_modify; intros w Hw; first [exact Hw | by destruct url]).
  all: try solve [preserve attempts_leaf].
  - destruct url; preserve attempts_leaf.
  - apply preserves_modify. intros w Hw. by case_decide.
  - apply preserves_modify. intros w.
    apply (preserves_elapse (fun w => connect_attempts (trace w) = n)),
      tick_connect_attempts.
Qed.

(** X3.  The script asks the host for a channel once per installation or
    browser start and at no other time: however a run goes, it makes as
    many [connectNative] calls as it has seen such events.  A channel that
    is lost is never reopened by the script on its own. *)
Theorem connects_only_on_start (evs : list Event) (w : World) :
  connect_attempts (trace (run evs w)) = connect_attempts (trace w) + starts evs.
Proof.
  revert w. induction evs as [|e evs IH]; intros w;
    [unfold run, starts; simpl; lia|].
  cbn [run foldl]. change (foldl _ ?w0 evs) with (run evs w0). rewrite IH.
  unfold starts. cbn [List.filter]. destruct (is_start e) eqn:He.
  - destruct e; try discriminate; cbn [step length];
      rewrite initializeState_attempt; lia.
  - rewrite (step_connect_attempts_other (connect_attempts (trace w)) e He w eq_refl).
    lia.
Qed.

(** ** What the script posts *)

Lemma emit_posts_within (A : JsValue → Prop) (c : HostCall) :
  (∀ p m, c = PostMessage p m → A m) →
  preserves (posts_within A) (emit c).
Proof.
  intros Hc w Hw. unfold posts_within in *. simpl.
  destruct c; try exact Hw. apply Forall_cons. split; [by eapply Hc | exact Hw].
Qed.

(** What [sendMessageToNMH] adds to the posted messages, and that it
    returns. *)
Lemma sendMessageToNMH_posts (m : JsValue) (w : World) :
  let r := sendMessageToNMH m w in
  (∃ b, r.1 = Ok b)
  ∧ posts (trace r.2)
    = match nmhPort w with
      | Some p => (p, m) :: posts (trace w)
      | None => posts (trace w)
      end.
Proof.
  unfold sendMessageToNMH, bind, read. destruct (nmhPort w) as [p|].
  - unfold try_catch, postMessage, bind, read, emit, modify. cbn [fst snd].
    destruct (is_open p _); (split; [eauto | done]).
  - split; [eauto | done].
Qed.

(** What [handleRuntimeMessage] adds to the posted messages: nothing, or
    the message it was given, and this only for a [share] message from a
    privileged context. *)
Lemma handleRuntimeMessage_posts (message : JsValue) (sender : MessageSender) (w : World) :
  let w' := (handleRuntimeMessage message sender w).2 in
  posts (trace w') = posts (trace w)
  ∨ (sender_tab sender = None
     ∧ is_string (field "type" message) "share" = true
     ∧ ∃ p, posts (trace w') = (p, message) :: posts (trace w)).
Proof.
  unfold handleRuntimeMessage, bind, console, emit, modify. cbn [fst snd].
  destruct (negb (String.eqb (typeof message) "object") || is_null message) eqn:Hv;
    [by left|].
  assert (∀ w0, get_prop message "type" w0 = (Ok (field "type" message), w0)) as ->.
  { intros w0. by destruct message. }
  destruct (is_string (field "type" message) "share") eqn:Hs; [|by left].
  destruct (sender_tab sender) as [t|] eqn:Ht; [by left|].
  set (w1 := set_trace _ w).
  destruct (sendMessageToNMH_posts message w1) as [[b Hb] Hp].
  destruct (sendMessageToNMH message w1) as [[b'|e] w2]; simpl in Hb; [|done].
  simpl in Hp. change (nmhPort w1) with (nmhPort w) in Hp.
  change (posts (trace w1)) with (posts (trace w)) in Hp.
  assert (posts (trace ((if b' then ret () else
            fun w3 => (Ok (), set_trace (Console LogError
              "Failed to send 'share' message to NMH." [] :: trace w3) w3)) w2).2)
          = posts (trace w2)) as Hq by (by destruct b').
  destruct (nmhPort w) as [p|].
  - right. split; [done|]. split; [done|]. exists p. by rewrite <- Hp.
  - left. by rewrite <- Hp.
Qed.

Lemma handleRuntimeMessage_posts_within
    (A : JsValue → Prop) (message : JsValue) (sender : MessageSender) :
  (sender_tab sender = None → is_string (field "type" message) "share" = true →
   A message) →
  preserves (posts_within A) (handleRuntimeMessage message sender).
Proof.
  intros HA w Hw. unfold posts_within in *.
  destruct (handleRuntimeMessage_posts message sender w) as [->|(Hs & Ht & p & ->)];
    [done|].
  apply Forall_cons. split; [by apply HA | done].
Qed.

Ltac posts_leaf HA :=
  idtac;
  lazymatch goal with
  | |- preserves _ (emit _) =>
      apply emit_posts_within; intros ? ? [= ? ?]; subst; exact HA
  | |- preserves _ (updateContextMenu _) => by intros ? ?
  end.

Lemma tick_posts_within (A : JsValue → Prop) : preserves (posts_within A) tick.
Proof.
  unfold tick. apply preserves_bind; [by apply preserves_modify|]. intros _.
  apply preserves_bind; [apply preserves_read|]. intros due.
  apply preserves_bind; [by apply preserves_modify|]. intros _.
  apply preserves_dispatch. intros _. unfold rebuildContextMenu.
  apply preserves_try_catch.
  - apply preserves_bind; [|intros _; apply preserves_bind].
    + unfold menus_removeAll. apply preserves_bind;
        [apply emit_posts_within; by intros ? ? [=] | intros _; by apply preserves_modify].
    + unfold tabs_query_active. apply preserves_bind;
        [apply emit_posts_within; by intros ? ? [=] | intros _; apply preserves_read].
    + intros ts. destruct (negb _); [|apply preserves_ret].
      unfold menus_create. apply preserves_bind;
        [apply emit_posts_within; by intros ? ? [=]|]. intros _.
      apply preserves_bind; [apply preserves_read|]. intros ms.
      destruct (existsb _ ms); [apply preserves_throw | by apply preserves_modify].
  - intros e. apply emit_posts_within. by intros ? ? [=].
Qed.

Lemma step_posts_within (A : JsValue → Prop) (e : Event) :
  A DEVICES_REQUEST →
  (∀ message sender, e = RuntimeMessage message sender →
     sender_tab sender = None → is_string (field "type" message) "share" = true →
     A message) →
  preserves (posts_within A) (step e).
Proof.
  intros HA Hs. destruct e; unfold step;
    try (apply preserves_modify; intros w Hw; first [exact Hw | by destruct url]).
  all: try solve [preserve ltac:(posts_leaf HA)].
  - apply handleRuntimeMessage_posts_within. by apply Hs.
  - destruct url; preserve ltac:(posts_leaf HA).
  - apply preserves_modify. intros w Hw. by case_decide.
  - apply preserves_modify. intros w.
    apply (preserves_elapse (posts_within A)), tick_posts_within.
Qed.

Lemma share_requests_cons (e : Event) (evs : list Event) :
  share_requests (e :: evs)
  = match e with
    | RuntimeMessage message sender =>
        if is_string (field "type" message) "share"
        then match sender_tab sender with
             | None => message :: share_requests evs
             | Some _ => share_requests evs
             end
        else share_requests evs
    | _ => share_requests evs
    end.
Proof.
  destruct e; try reflexivity. unfold share_requests. simpl.
  destruct (is_string (field "type" message) "share"); [|done].
  by destruct (sender_tab sender).
Qed.

Lemma run_posts_within (A : JsValue → Prop) (evs : list Event) (w : World) :
  A DEVICES_REQUEST →
  (∀ m, m ∈ share_requests evs → A m) →
  posts_within A w → posts_within A (run evs w).
Proof.
  intros HA. revert w. induction evs as [|e evs IH]; intros w Hs Hw; [done|].
  cbn [run foldl]. change (foldl _ ?w0 evs) with (run evs w0). apply IH.
  - intros m Hm. apply Hs. rewrite share_requests_cons.
    destruct e; try exact Hm.
    destruct (is_string (field "type" message) "share"); [|exact Hm].
    destruct (sender_tab sender); [exact Hm|]. by apply list_elem_of_further.
  - apply step_posts_within; [done | | done].
    intros message sender -> Ht Hty. apply Hs. rewrite share_requests_cons.
    rewrite Hty, Ht. apply list_elem_of_here.
Qed.

(** X4.  Whatever happens, every message the script has posted to the
    companion process is either the device request or a [share] message
    that a privileged context has sent it, passed on as received.  Nothing
    that comes from a tab, and nothing of the script's own making, goes
    out. *)
Theorem posts_are_requests_or_shares (evs : list Event) (p : nat) (m : JsValue) :
  (p, m) ∈ posts (trace (run evs fresh)) →
  m = DEVICES_REQUEST ∨ m ∈ share_requests evs.
Proof.
  intros Hm.
  pose proof (run_posts_within
                (fun m => m = DEVICES_REQUEST ∨ m ∈ share_requests evs) evs fresh
                (or_introl eq_refl) (fun m Hm => or_intror Hm) (Forall_nil_2 _))
    as H.
  unfold posts_within in H. rewrite Forall_forall in H. by apply (H (p, m)).
Qed.

(** ** The context menu *)

(** One rebuild, call by call. *)
Lemma rebuildContextMenu_runs (w : World) :
  (rebuildContextMenu w).1 = Ok tt
  ∧ menus (rebuildContextMenu w).2 = expected_menu (current_url w)
  ∧ trace (rebuildContextMenu w).2
    = (if Background.isSpecialUrl (current_url w) then []
       else [MenusCreate SHARE_ENTRY])
      ++ TabsQuery :: MenusRemoveAll :: trace w.
Proof.
  unfold rebuildContextMenu, try_catch, bind, expected_menu, current_url.
  cbn [menus_removeAll tabs_query_active emit modify read bind fst snd].
  cbn [active_tab tabs set_menus set_trace].
  destruct (active_tab w) as [i|]; [destruct (tabs w !! i) as [url|]|];
    cbn [head mbind option_bind tab_url default]; unfold id;
    match goal with |- context [Background.isSpecialUrl ?u] =>
      destruct (Background.isSpecialUrl u) end;
    repeat split; reflexivity.
Qed.

(** X5.  A rebuild derives the menu from the current tab alone, whatever
    the menu held before, even an entry with the same id: it empties the
    menu, asks for the active tab, and creates the share entry unless the
    URL is special.  Creating cannot fail then, so the failure path is
    never taken, nothing is logged, and rebuilding twice gives what
    rebuilding once gives. *)
Theorem rebuild_from_scratch (w : World) :
  let r := rebuildContextMenu w in
  r.1 = Ok tt
  ∧ menus r.2 = expected_menu (current_url w)
  ∧ trace r.2
    = (if Background.isSpecialUrl (current_url w) then []
       else [MenusCreate SHARE_ENTRY])
      ++ TabsQuery :: MenusRemoveAll :: trace w
  ∧ menus (rebuildContextMenu r.2).2 = menus r.2.
Proof.
  intros r. subst r. destruct (rebuildContextMenu_runs w) as (Hr & Hm & Ht).
  split; [done|]. split; [done|]. split; [done|].
  destruct (rebuildContextMenu_runs (rebuildContextMenu w).2) as (_ & Hm' & _).
  rewrite Hm', Hm. f_equal.
  destruct (rebuildContextMenu_spec w) as (_ & _ & _ & _ & _ & Htb & Hac).
  unfold current_url. by rewrite Htb, Hac.
Qed.

Lemma rebuildContextMenu_menus_ok : preserves menus_ok rebuildContextMenu.
Proof.
  intros w _. destruct (rebuildContextMenu_spec w) as [Hm _].
  unfold menus_ok. rewrite Hm. unfold expected_menu.
  destruct (Background.isSpecialUrl _); [by left | by right].
Qed.

Ltac menus_leaf :=
  idtac;
  lazymatch goal with
  | |- preserves _ rebuildContextMenu => apply rebuildContextMenu_menus_ok
  | |- preserves _ (updateContextMenu _) => by intros ? ?
  end.

Lemma tick_menus_ok : preserves menus_ok tick.
Proof. preserve menus_leaf. Qed.

Lemma step_menus_ok (e : Event) : preserves menus_ok (step e).
Proof.
  destruct e; unfold step;
    try (apply preserves_modify; intros w Hw; first [exact Hw | by destruct url]).
  all: try solve [preserve menus_leaf].
  - destruct url; preserve menus_leaf.
  - apply preserves_modify. intros w Hw. by case_decide.
  - apply preserves_modify. intros w. apply preserves_elapse, tick_menus_ok.
Qed.

(** X6.  In every state the script can be in, the menu holds at most one
    entry, and an entry that is there is the share entry: choosing it
    makes the click handler open the popup. *)
Theorem menu_holds_share_entry_only (evs : list Event) (entry : MenuEntry) :
  let w := run evs fresh in
  length (menus w) ≤ 1
  ∧ (entry ∈ menus w →
     entry = SHARE_ENTRY
     ∧ step (MenuClicked (menu_id entry)) w
       = (Ok tt, set_trace (ActionOpenPopup :: trace w) w)).
Proof.
  intros w.
  assert (menus_ok w) as [Hm|Hm].
  { apply preserves_run; [apply step_menus_ok | by left]. }
  - rewrite Hm. split; [simpl; lia|]. by intros ?%elem_of_nil.
  - rewrite Hm. split; [simpl; lia|].
    intros ->%list_elem_of_singleton. done.
Qed.

(** ** The message router *)

Lemma handleRuntimeMessage_frame
    (message : JsValue) (sender : MessageSender) (w : World) :
  let w' := (handleRuntimeMessage message sender w).2 in
  storage w' = storage w ∧ nmhPort w' = nmhPort w
  ∧ timers w' = timers w ∧ menus w' = menus w.
Proof.
  assert (preserves (fun w' => storage w' = storage w ∧ nmhPort w' = nmhPort w
                               ∧ timers w' = timers w ∧ menus w' = menus w)
                    (handleRuntimeMessage message sender)) as H
    by preserve fail.
  by apply H.
Qed.

Lemma handleRuntimeMessage_returns
    (message : JsValue) (sender : MessageSender) (w : World) :
  (handleRuntimeMessage message sender w).1 = Ok tt.
Proof.
  unfold handleRuntimeMessage, bind, console, emit, modify. cbn [fst snd].
  destruct (negb (String.eqb (typeof message) "object") || is_null message) eqn:Hv;
    [done|].
  assert (∀ w0, get_prop message "type" w0 = (Ok (field "type" message), w0)) as ->.
  { intros w0. by destruct message. }
  destruct (is_string (field "type" message) "share"); [|done].
  destruct (sender_tab sender); [done|].
  set (w1 := set_trace _ w).
  destruct (sendMessageToNMH_posts message w1) as [[b Hb] _].
  destruct (sendMessageToNMH message w1) as [[b'|e] w2]; simpl in Hb; [|done].
  by destruct b'.
Qed.

(** X7.  No message from another context makes the router throw, be it
    [null], a number or an object without [type], and none makes it touch
    the store, the channel handle, the timers or the menu.  A message that
    is not of type ['share'] is answered with one warning and has no
    other effect: "invalid" when it is no object, "unknown type" when it
    is one. *)
Theorem router_robust (message : JsValue) (sender : MessageSender) (w : World) :
  let r := handleRuntimeMessage message sender w in
  r.1 = Ok tt
  ∧ storage r.2 = storage w ∧ nmhPort r.2 = nmhPort w
  ∧ timers r.2 = timers w ∧ menus r.2 = menus w
  ∧ (is_string (field "type" message) "share" = false →
     r.2 = set_trace
             ((if negb (String.eqb (typeof message) "object") || is_null message
               then Console LogWarn "Received invalid message." []
               else Console LogWarn "Received unknown message type: "
                      [field "type" message])
              :: Console LogInfo "Received message:" [message] :: trace w) w).
Proof.
  intros r. subst r. split; [apply handleRuntimeMessage_returns|].
  destruct (handleRuntimeMessage_frame message sender w) as (Hs & Hn & Ht & Hm).
  repeat (split; [done|]).
  intros Hty. unfold handleRuntimeMessage, bind, console, emit, modify. cbn [fst snd].
  destruct (negb (String.eqb (typeof message) "object") || is_null message) eqn:Hv;
    [done|].
  assert (∀ w0, get_prop message "type" w0 = (Ok (field "type" message), w0)) as ->.
  { intros w0. by destruct message. }
  by rewrite Hty.
Qed.

(** ** The toolbar icon *)

Lemma special_scheme_spec (s : string) :
  special_scheme s = true ↔ ∃ p, In p SPECIAL_PROTOCOLS ∧ scheme s = Some p.
Proof.
  unfold special_scheme. destruct (scheme s) as [q|].
  - rewrite existsb_exists. split.
    + intros (p & Hin & ->%String.eqb_eq). by exists p.
    + intros (p & Hin & [= ->]). exists p. split; [done | apply String.eqb_refl].
  - split; [done | by intros (p & _ & ?)].
Qed.

Lemma background_isSpecialUrl_special_scheme (url : option string) :
  Background.isSpecialUrl url = special_scheme (default "" url).
Proof.
  destruct url as [s|]; [|done]. destruct (decide (s = "")) as [->|Hs]; [done|].
  simpl. apply eq_true_iff_eq.
  by rewrite background_isSpecialUrl_scheme, special_scheme_spec.
Qed.

(** X8.  [updateIconState] makes one call and no other change: it
    disables the icon of the tab when the URL has one of the six special
    schemes, and enables it for every other URL, a text without scheme, an
    empty and a missing URL included. *)
Theorem icon_follows_scheme (tabId : nat) (url : option string) (w : World) :
  updateIconState tabId url w
  = (Ok tt,
     set_trace ((if special_scheme (default "" url)
                 then ActionDisable tabId else ActionEnable tabId) :: trace w) w).
Proof.
  unfold updateIconState. rewrite background_isSpecialUrl_special_scheme.
  by destruct (special_scheme _).
Qed.

(** What the listener of tab activation does for a tab the browser knows. *)
Lemma onTabActivated_known (tabId : nat) (url : option string) (w : World) :
  tabs w !! tabId = Some url →
  step (TabActivated tabId) w
  = updateContextMenu None
      (set_trace ((if Background.isSpecialUrl url
                   then ActionDisable tabId else ActionEnable tabId)
                  :: TabsGet tabId :: trace w)
         (set_active_tab (Some tabId) w)).
Proof.
  intros Ht. unfold step, onTabActivated, tabs_get, bind, read, emit, modify.
  cbn [fst snd tabs set_trace set_active_tab]. rewrite Ht.
  cbn [ret tab_id tab_url]. unfold updateIconState.
  by destruct (Background.isSpecialUrl url).
Qed.

Lemma icon_calls_app (tr1 tr2 : list HostCall) :
  icon_calls (tr1 ++ tr2) = icon_calls tr1 ++ icon_calls tr2.
Proof. apply omap_app. Qed.

(** X9.  When a tab the browser knows is activated, the icon is set at
    once and the menu a delay later, and the two agree: the icon of the tab
    is enabled exactly when the menu then offers the share entry. *)
Theorem icon_and_menu_agree (tabId : nat) (url : option string) (d : nat) (w : World) :
  timers_ok w → tabs w !! tabId = Some url → 250 ≤ d →
  let w' := run [TabActivated tabId; Elapsed d] w in
  icon_calls (trace w')
  = (tabId, negb (Background.isSpecialUrl url)) :: icon_calls (trace w)
  ∧ menus w' = (if Background.isSpecialUrl url then [] else [SHARE_ENTRY]).
Proof.
  intros Hw Ht Hd w'. subst w'. unfold run. cbn [foldl].
  rewrite (onTabActivated_known _ _ _ Ht). cbn [step modify snd].
  set (w0 := set_trace _ (set_active_tab _ w)).
  assert (timers_ok w0) as H0 by exact Hw.
  destruct (trigger_pending w0 H0) as (Hp & Htr & Htb & Hac).
  set (w1 := (updateContextMenu None w0).2) in *.
  destruct Hp as (id & Htm & Hh).
  rewrite (elapse_fire d w1 _ Htm) by (simpl; lia).
  rewrite trace_set_now, menus_set_now.
  change ((id, now w1 + 250).2) with (now w1 + 250).
  set (w2 := set_timers [] (set_now (now w1 + 250) w1)).
  destruct (rebuildContextMenu_runs w2) as (_ & Hm & Hr).
  assert (current_url w2 = url) as Hu.
  { unfold current_url. change (active_tab w2) with (active_tab w1).
    change (tabs w2) with (tabs w1). rewrite Hac, Htb. simpl. by rewrite Ht. }
  rewrite Hm, Hr, Hu. split; [|done].
  rewrite icon_calls_app. change (trace w2) with (trace w1). rewrite Htr.
  by destruct (Background.isSpecialUrl url).
Qed.

(** X10.  The listener of tab activation does not catch a rejected
    [tabs.get]: for a tab the browser no longer knows the exception
    escapes, and neither the icon nor the menu is refreshed. *)
Theorem activation_of_unknown_tab (tabId : nat) (w : World) :
  tabs w !! tabId = None →
  let r := step (TabActivated tabId) w in
  (∃ e, r.1 = Throw e)
  ∧ icon_calls (trace r.2) = icon_calls (trace w)
  ∧ timers r.2 = timers w
  ∧ updateContextMenuTimeout r.2 = updateContextMenuTimeout w.
Proof.
  intros Ht. unfold step, onTabActivated, tabs_get, bind, read, emit, modify.
  cbn [fst snd tabs set_trace set_active_tab]. rewrite Ht.
  split; [by eexists | done].
Qed.

(** ** After the channel is lost *)

Lemma emit_silent (ps : list (nat * JsValue)) (c : HostCall) :
  (∀ p m, c ≠ PostMessage p m) → preserves (silent ps) (emit c).
Proof.
  intros Hc w [Hn Hp]. split; [done|]. simpl. destruct c; try done.
  by destruct (Hc p m).
Qed.

Lemma sendMessageToNMH_silent (ps : list (nat * JsValue)) (m : JsValue) :
  preserves (silent ps) (sendMessageToNMH m).
Proof.
  intros w [Hn Hp]. unfold sendMessageToNMH, bind, read. rewrite Hn. by split.
Qed.

Ltac silent_leaf :=
  idtac;
  lazymatch goal with
  | |- preserves _ (emit _) => by apply emit_silent
  | |- preserves _ (sendMessageToNMH _) => apply sendMessageToNMH_silent
  | |- preserves _ (modify (set_nmhPort None)) =>
      apply preserves_modify; by intros ? [? ?]
  | |- preserves _ (updateContextMenu _) =>
      intros ? [? ?]; split; [done|]; simpl; done
  end.

Lemma tick_silent (ps : list (nat * JsValue)) : preserves (silent ps) tick.
Proof. preserve silent_leaf. Qed.

Lemma step_silent (ps : list (nat * JsValue)) (e : Event) :
  is_start e = false → preserves (silent ps) (step e).
Proof.
  intros He. destruct e; try discriminate; unfold step;
    try (apply preserves_modify; intros w Hw; first [exact Hw | by destruct url]).
  all: try solve [preserve silent_leaf].
  - apply preserves_modify. by intros w [Hn Hp].
  - destruct url; preserve silent_leaf.
  - apply preserves_modify. intros w Hw. by case_decide.
  - apply preserves_modify. intros w.
    apply (preserves_elapse (silent ps)), tick_silent.
Qed.

(** X11.  Once the script holds no channel it stays without one, and
    posts nothing, until the extension is installed or the browser started
    again: no message from the popup, no tab event and no lapse of time
    brings the channel back or gets anything sent. *)
Theorem silent_until_restart (evs : list Event) (w : World) :
  nmhPort w = None → starts evs = 0 →
  nmhPort (run evs w) = None ∧ posts (trace (run evs w)) = posts (trace w).
Proof.
  intros Hn. revert w Hn. induction evs as [|e evs IH]; intros w Hn Hs; [done|].
  unfold starts in Hs. cbn [List.filter] in Hs.
  destruct (is_start e) eqn:He; [done|].
  assert (silent (posts (trace w)) (step e w).2) as [Hn' Hp']
    by (by apply step_silent).
  cbn [run foldl]. change (foldl _ ?w0 evs) with (run evs w0).
  destruct (IH _ Hn' Hs) as [Hn2 Hp2]. split; [done | congruence].
Qed.

(** ** Starting up and reconnecting *)

(** X12.  [initializeState] never throws, whatever the host does: after
    it the script holds the new channel if one could be opened and none
    otherwise, and it has set the icon of the active tab if there is one
    and touched no icon if there is none. *)
Theorem initializeState_outcome (host_ok : bool) (w : World) :
  let r := initializeState host_ok w in
  r.1 = Ok tt
  ∧ nmhPort r.2 = (if host_ok then Some (length (ports w)) else None)
  ∧ icon_calls (trace r.2)
    = match active_tab w with
      | Some i =>
          match tabs w !! i with
          | Some url => (i, negb (Background.isSpecialUrl url)) :: icon_calls (trace w)
          | None => icon_calls (trace w)
          end
      | None => icon_calls (trace w)
      end.
Proof.
  unfold initializeState, connectToNMH, try_catch, bind. simpl.
  destruct host_ok; destruct (nmhPort w) as [p|]; simpl;
    (destruct (active_tab w) as [i|]; [destruct (tabs w !! i) as [url|]|]); simpl;
    rewrite ?length_alter; try done;
    unfold updateIconState; by destruct (Background.isSpecialUrl url).
Qed.

(** X13.  [connectToNMH] gives up the channel it holds before it asks for
    a new one, and does so whether or not the new one can be opened: the
    old port is closed, keeps what was sent on it, and is disconnected
    before the host is asked. *)
Theorem reconnect_closes_old_channel (host_ok : bool) (p : nat) (q : Port) (w : World) :
  nmhPort w = Some p → ports w !! p = Some q →
  let w' := (connectToNMH host_ok w).2 in
  ports w' !! p = Some (close q)
  ∧ ∃ tr, trace w' = tr ++ ConnectNative APPLICATION_ID :: PortDisconnect p :: trace w.
Proof.
  intros Hp Hq w'. subst w'.
  assert (p < length (alter close p (ports w))) as Hlt.
  { rewrite length_alter. by eapply lookup_lt_Some. }
  split.
  - destruct host_ok.
    + destruct (connectToNMH_opened w) as [-> _]. unfold released. rewrite Hp.
      rewrite lookup_app_l by done. by rewrite list_lookup_alter_eq, Hq.
    + destruct (connectToNMH_failed w) as [-> _]. unfold released. rewrite Hp.
      by rewrite list_lookup_alter_eq, Hq.
  - unfold connectToNMH, try_catch, bind. simpl. rewrite Hp.
    destruct host_ok; simpl.
    + by eexists [_; _].
    + by eexists [_; _].
Qed.

(** * Properties of the popup *)

Lemma popup_isSpecialUrl_special_scheme (url : option string) :
  Popup.isSpecialUrl url = negb (url_truthy url) || special_scheme (default "" url).
Proof.
  destruct url as [s|]; [|done]. destruct (decide (s = "")) as [->|Hs]; [done|].
  assert (url_truthy (Some s) = true) as Ht.
  { simpl. by destruct (String.eqb_spec s ""). }
  rewrite Ht. cbn [negb orb default]. apply eq_true_iff_eq.
  by rewrite popup_isSpecialUrl_scheme, special_scheme_spec.
Qed.

Lemma getCurrentTab_spec (h : PopupHost) (s : PopupState) :
  (getCurrentTab h s).1 = current_tab h
  ∧ content (getCurrentTab h s).2 = content s
  ∧ outbox (getCurrentTab h s).2 = outbox s
  ∧ alerts (getCurrentTab h s).2 = alerts s
  ∧ window_closed (getCurrentTab h s).2 = window_closed s.
Proof. unfold getCurrentTab, current_tab. by destruct (query_result h). Qed.

(** The popup on a page its own test calls special. *)
Lemma renderPopupUI_special (h : PopupHost) (s : PopupState) (t : Tab) :
  current_tab h = Some t → Popup.isSpecialUrl (tab_url t) = true →
  content (renderPopupUI h s).2 = [STATUS "Sharing is not available on this page."].
Proof.
  intros Ht Hu. unfold renderPopupUI.
  destruct (getCurrentTab_spec h (set_content [] s)) as (Ht' & Hc & _).
  destruct (getCurrentTab h (set_content [] s)) as [currentTab s1].
  simpl in Ht', Hc. subst currentTab. rewrite Ht, Hu. simpl. by rewrite Hc.
Qed.

(** X14.  Where a page cannot be shared the popup offers no device,
    whatever is stored: when the tab query fails or finds no tab, when the
    tab has no URL or an empty one, and when the scheme of its URL is one
    of the special ones, rendering returns normally and the popup holds
    the one message that sharing is not available. *)
Theorem popup_refuses_unshareable_page (h : PopupHost) (s : PopupState) :
  match current_tab h with
  | None => True
  | Some t =>
      url_truthy (tab_url t) = false ∨ special_scheme (default "" (tab_url t)) = true
  end →
  (renderPopupUI h s).1 = Ok tt
  ∧ content (renderPopupUI h s).2 = [STATUS "Sharing is not available on this page."].
Proof.
  intros Hp. unfold renderPopupUI.
  destruct (getCurrentTab_spec h (set_content [] s)) as (Ht & Hc & _).
  destruct (getCurrentTab h (set_content [] s)) as [currentTab s1].
  simpl in Ht, Hc. subst currentTab. destruct (current_tab h) as [t|].
  - rewrite popup_isSpecialUrl_special_scheme.
    destruct Hp as [-> | ->]; rewrite ?orb_true_r; simpl; by rewrite Hc.
  - simpl. by rewrite Hc.
Qed.

(** The popup on a page that can be shared. *)
Lemma renderPopupUI_shareable (h : PopupHost) (s : PopupState) (t : Tab) :
  current_tab h = Some t → Popup.isSpecialUrl (tab_url t) = false →
  ∃ s1, content s1 = [] ∧ outbox s1 = outbox s
  ∧ renderPopupUI h s
    = if is_false (default JUndefined (stored h !! "connected"))
      then (Ok tt, showStatusMessage "GSConnect is not connected." s1)
      else match default JUndefined (stored h !! "devices") with
           | JArr (device :: rest) => renderDeviceList (device :: rest) s1
           | _ => (Ok tt, showStatusMessage "No devices found." s1)
           end.
Proof.
  intros Ht Hu. unfold renderPopupUI.
  destruct (getCurrentTab_spec h (set_content [] s)) as (Ht' & Hc & Ho & _).
  destruct (getCurrentTab h (set_content [] s)) as [currentTab s1].
  simpl in Ht', Hc, Ho. subst currentTab. rewrite Ht, Hu. by exists s1.
Qed.

(** X15.  On a page that can be shared the popup says that GSConnect is
    not connected exactly when [connected] is stored as the boolean
    [false]; while nothing is stored yet, as after installation, it says
    that no devices were found. *)
Theorem popup_not_connected_iff (h : PopupHost) (s : PopupState) (t : Tab) :
  current_tab h = Some t → Popup.isSpecialUrl (tab_url t) = false →
  (content (renderPopupUI h s).2 = [STATUS "GSConnect is not connected."]
   ↔ stored h !! "connected" = Some (JBool false))
  ∧ (stored h = ∅ →
     (renderPopupUI h s).1 = Ok tt
     ∧ content (renderPopupUI h s).2 = [STATUS "No devices found."]).
Proof.
  intros Ht Hu. destruct (renderPopupUI_shareable h s t Ht Hu) as (s1 & Hc & _ & ->).
  split.
  - split.
    + destruct (stored h !! "connected") as [[| |[|]| | | |]|]; simpl; try done;
        (destruct (default JUndefined (stored h !! "devices")) as [| | | | |[|d ds]|];
         simpl; rewrite ?Hc; try discriminate);
        unfold renderDeviceList; destruct (device_items (d :: ds));
        simpl; rewrite ?Hc; discriminate.
    + intros ->. simpl. by rewrite Hc.
  - intros ->. rewrite !lookup_empty. simpl. by rewrite Hc.
Qed.

(** ** The device list *)

Lemma device_items_all (devices : list JsValue) :
  forallb (fun d => negb (nullish d)) devices = true →
  device_items devices = Ok (map device_item devices).
Proof.
  induction devices as [|d ds IH]; [done|]. cbn [forallb].
  intros [Hd Hds]%andb_true_iff. cbn [device_items map]. rewrite (IH Hds).
  by destruct d.
Qed.

Lemma device_items_nullish (devices : list JsValue) :
  existsb nullish devices = true → ∃ e, device_items devices = Throw e.
Proof.
  induction devices as [|d ds IH]; [done|]. cbn [existsb].
  intros [Hd|Hds]%orb_true_iff; cbn [device_items].
  - destruct d; try discriminate; by eexists.
  - destruct (createDeviceItem d); [|by eexists].
    destruct (IH Hds) as [e ->]. by eexists.
Qed.

Lemma clicks_device_item (device : JsValue) :
  clicks (device_item device) = capabilities device.
Proof.
  unfold device_item, capabilities, device_buttons. cbn [clicks flat_map option_list app].
  rewrite !app_nil_r.
  destruct (truthy (field "share" device)), (truthy (field "telephony" device)); done.
Qed.

Lemma clicks_device_items (devices : list JsValue) :
  flat_map clicks (map device_item devices) = flat_map capabilities devices.
Proof.
  induction devices as [|d ds IH]; [done|].
  cbn [map flat_map]. by rewrite clicks_device_item, IH.
Qed.

Lemma clicks_device_list (devices : list JsValue) :
  clicks (DEVICE_LIST (map device_item devices)) = flat_map capabilities devices.
Proof. unfold DEVICE_LIST. cbn [clicks option_list app]. apply clicks_device_items. Qed.

(** X16.  On a page that can be shared, with the record not saying
    disconnected and a list of devices none of which is [null] or
    [undefined], the popup holds one list with one item per device, in the
    order stored, and nothing else; the buttons in it are, device by
    device, one for sharing if the device can share and one for telephony
    if it can do that, each bound to the id of its device. *)
Theorem popup_lists_devices
    (h : PopupHost) (s : PopupState) (t : Tab) (device : JsValue) (rest : list JsValue) :
  current_tab h = Some t → Popup.isSpecialUrl (tab_url t) = false →
  stored h !! "connected" ≠ Some (JBool false) →
  stored h !! "devices" = Some (JArr (device :: rest)) →
  forallb (fun d => negb (nullish d)) (device :: rest) = true →
  (renderPopupUI h s).1 = Ok tt
  ∧ content (renderPopupUI h s).2 = [DEVICE_LIST (map device_item (device :: rest))]
  ∧ flat_map clicks (content (renderPopupUI h s).2)
    = flat_map capabilities (device :: rest).
Proof.
  intros Ht Hu Hc Hd Hn.
  destruct (renderPopupUI_shareable h s t Ht Hu) as (s1 & Hc1 & _ & ->).
  assert (is_false (default JUndefined (stored h !! "connected")) = false) as ->.
  { destruct (stored h !! "connected") as [[| |[|]| | | |]|]; done. }
  rewrite Hd. cbn [default from_option id]. unfold id. unfold renderDeviceList.
  rewrite (device_items_all _ Hn). cbn [fst snd set_content content]. rewrite Hc1.
  split; [done|]. split; [done|].
  cbn [app flat_map]. by rewrite app_nil_r, clicks_device_list.
Qed.

(** X17.  One device that is [null] or [undefined] in the stored list
    makes rendering throw, and since the list is attached only when all
    items are made, the popup is left empty: no device is shown, not even
    those before the bad one, and no message. *)
Theorem popup_blank_on_null_device
    (h : PopupHost) (s : PopupState) (t : Tab) (devices : list JsValue) :
  current_tab h = Some t → Popup.isSpecialUrl (tab_url t) = false →
  stored h !! "connected" ≠ Some (JBool false) →
  stored h !! "devices" = Some (JArr devices) →
  existsb nullish devices = true →
  (∃ e, (renderPopupUI h s).1 = Throw e)
  ∧ content (renderPopupUI h s).2 = [].
Proof.
  intros Ht Hu Hc Hd Hn.
  destruct (renderPopupUI_shareable h s t Ht Hu) as (s1 & Hc1 & _ & ->).
  assert (is_false (default JUndefined (stored h !! "connected")) = false) as ->.
  { destruct (stored h !! "connected") as [[| |[|]| | | |]|]; done. }
  rewrite Hd. cbn [default from_option id]. unfold id. destruct devices as [|d ds]; [done|].
  unfold renderDeviceList. destruct (device_items_nullish _ Hn) as [e ->].
  split; [by exists e | done].
Qed.

(** X18.  What the popup shows depends on the tab and the store alone,
    not on what it showed before: rendering again replaces the content,
    it never adds to it. *)
Theorem render_replaces_content (h : PopupHost) (s s' : PopupState) :
  (renderPopupUI h s).1 = (renderPopupUI h s').1
  ∧ content (renderPopupUI h s).2 = content (renderPopupUI h s').2
  ∧ content (renderPopupUI h (renderPopupUI h s).2).2 = content (renderPopupUI h s).2.
Proof.
  assert (∀ s1 s2, (renderPopupUI h s1).1 = (renderPopupUI h s2).1
                   ∧ content (renderPopupUI h s1).2 = content (renderPopupUI h s2).2) as H.
  { intros s1 s2. unfold renderPopupUI, getCurrentTab.
    destruct (query_result h) as [ts|e]; [|done]. destruct (head ts) as [t|]; [|done].
    destruct (Popup.isSpecialUrl (tab_url t)); [done|].
    destruct (is_false _); [done|].
    destruct (default JUndefined (stored h !! "devices")) as [| | | | |[|d ds]|];
      try done.
    unfold renderDeviceList. by destruct (device_items (d :: ds)). }
  split; [apply H|]. split; [apply H|]. symmetry. apply H.
Qed.

(** ** Sharing from the popup *)

(** X19.  A click on a button shares the page the browser shows now, or
    nothing.  Without a tab, and on a page that cannot be shared, no
    message is sent, the window stays open and one line is added below
    what the popup shows.  Otherwise exactly one [share] message goes to
    the background script, naming the device, the action and the URL of
    the tab, and the window is closed whether or not the message could be
    delivered; a failure shows one alert. *)
Theorem action_click_outcome
    (deviceId : JsValue) (action : string) (h : PopupHost) (s : PopupState) :
  let s' := handleActionClick deviceId action h s in
  let refused message :=
    outbox s' = outbox s ∧ window_closed s' = window_closed s
    ∧ alerts s' = alerts s ∧ content s' = content s ++ [STATUS message] in
  match current_tab h with
  | None => refused "Cannot determine the current page."
  | Some t =>
      if Popup.isSpecialUrl (tab_url t)
      then refused "Sharing is not available on this page."
      else
        outbox s' = share_message deviceId action (tab_url t) :: outbox s
        ∧ window_closed s' = true
        ∧ content s' = content s
        ∧ alerts s'
          = (if send_ok h then alerts s
             else "Failed to send message to the background service. Please try again."
                    :: alerts s)
  end.
Proof.
  intros s' refused. subst s' refused. unfold handleActionClick.
  destruct (getCurrentTab_spec h s) as (Ht & Hc & Ho & Ha & Hw).
  destruct (getCurrentTab h s) as [currentTab s1]. simpl in Ht, Hc, Ho, Ha, Hw.
  subst currentTab. destruct (current_tab h) as [t|].
  - destruct (Popup.isSpecialUrl (tab_url t)).
    + simpl. by rewrite Hc, Ho, Ha, Hw.
    + unfold sendMessageToBackground. destruct (send_ok h); simpl;
        by rewrite Hc, Ho, Ha.
  - simpl. by rewrite Hc, Ho, Ha, Hw.
Qed.

Lemma handleActionClick_shareable
    (deviceId : JsValue) (action : string) (h : PopupHost) (s : PopupState) (t : Tab) :
  current_tab h = Some t → Popup.isSpecialUrl (tab_url t) = false →
  outbox (handleActionClick deviceId action h s)
  = share_message deviceId action (tab_url t) :: outbox s.
Proof.
  intros Ht Hu. unfold handleActionClick.
  destruct (getCurrentTab_spec h s) as (Ht' & _ & Ho & _).
  destruct (getCurrentTab h s) as [currentTab s1]. simpl in Ht', Ho.
  subst currentTab. rewrite Ht, Hu. unfold sendMessageToBackground.
  destruct (send_ok h); simpl; by rewrite Ho.
Qed.

(** The background script given a message of the popup, with a channel
    that is open. *)
Lemma handleRuntimeMessage_share_message
    (deviceId : JsValue) (action : string) (url : option string) (p : nat) (w : World) :
  nmhPort w = Some p → is_open p w = true →
  let m := share_message deviceId action url in
  handleRuntimeMessage m (mkSender None) w
  = (Ok tt,
     set_ports (alter (push m) p (ports w))
       (set_trace (PostMessage p m :: Console LogInfo "Received message:" [m] :: trace w)
          w)).
Proof.
  intros Hp Ho m. unfold handleRuntimeMessage, bind, console, emit, modify.
  cbn [fst snd]. subst m. unfold share_message at 1 2 3.
  cbn [typeof is_null get_prop field assoc ret]. rewrite !String.eqb_refl.
  cbn [negb orb default from_option id is_string sender_tab].
  rewrite String.eqb_refl.
  by rewrite (sendMessageToNMH_open _ p) by done.
Qed.

(** X20.  From the button to the companion process: on a page that can
    be shared, the message a click hands to the background script is,
    when that script holds an open channel, the very message the companion
    process receives, once; it names the device and the action of the
    button and the URL of the tab, which is not empty. *)
Theorem click_reaches_companion
    (deviceId : JsValue) (action : string) (h : PopupHost) (s : PopupState)
    (t : Tab) (p : nat) (w : World) :
  current_tab h = Some t → Popup.isSpecialUrl (tab_url t) = false →
  nmhPort w = Some p → is_open p w = true →
  ∃ m u,
    outbox (handleActionClick deviceId action h s) = m :: outbox s
    ∧ tab_url t = Some u ∧ u ≠ ""
    ∧ field "device" (field "data" m) = deviceId
    ∧ field "url" (field "data" m) = JStr u
    ∧ field "action" (field "data" m) = JStr action
    ∧ let r := step (RuntimeMessage m (mkSender None)) w in
      r.1 = Ok tt
      ∧ posts (trace r.2) = (p, m) :: posts (trace w)
      ∧ ports r.2 = alter (push m) p (ports w).
Proof.
  intros Ht Hu Hp Ho.
  destruct (tab_url t) as [u|] eqn:Eu; [|done].
  assert (u ≠ "") as Hne by (by intros ->).
  exists (share_message deviceId action (Some u)), u.
  split.
  { rewrite (handleActionClick_shareable _ _ _ _ t);
      [by rewrite Eu | done | by rewrite Eu]. }
  repeat (split; [done|]).
  cbn [step]. by rewrite (handleRuntimeMessage_share_message _ _ _ p).
Qed.

(** ** The popup and the background script *)

Lemma current_tab_popup_host (query : Res (list Tab)) (send : bool) (w w' : World) :
  current_tab (popup_host query send w) = current_tab (popup_host query send w').
Proof. reflexivity. Qed.

Lemma renderPopupUI_written
    (query : Res (list Tab)) (send : bool) (d c : JsValue) (w : World)
    (s : PopupState) (t : Tab) :
  current_tab (popup_host query send w) = Some t →
  Popup.isSpecialUrl (tab_url t) = false →
  storage_get ["devices"; "connected"] w = {[ "devices" := d; "connected" := c ]} →
  ∃ s1, content s1 = []
  ∧ renderPopupUI (popup_host query send w) s
    = if is_false c
      then (Ok tt, showStatusMessage "GSConnect is not connected." s1)
      else match d with
           | JArr (device :: rest) => renderDeviceList (device :: rest) s1
           | _ => (Ok tt, showStatusMessage "No devices found." s1)
           end.
Proof.
  intros Ht Hu Hs.
  destruct (renderPopupUI_shareable _ s t Ht Hu) as (s1 & Hc & _ & ->).
  exists s1. split; [done|]. cbn [stored popup_host]. rewrite Hs.
  rewrite lookup_insert_ne, lookup_singleton_eq by done.
  by rewrite lookup_insert_eq.
Qed.

(** X21.  The popup shows what the background script has stored last.  On
    a page that can be shared: once the companion process has closed the
    channel the popup says that GSConnect is not connected, whatever
    devices were known before; and once a list of devices has arrived,
    none of them [null] or [undefined], the popup lists exactly these, in
    the order received. *)
Theorem popup_follows_background
    (query : Res (list Tab)) (send : bool) (s : PopupState) (t : Tab) (w : World) :
  current_tab (popup_host query send w) = Some t →
  Popup.isSpecialUrl (tab_url t) = false →
  (∀ p q, ports w !! p = Some q → port_open q = true →
          onDisconnect q = [OnNMHDisconnect] →
          let w' := (step (NativeDisconnect p) w).2 in
          content (renderPopupUI (popup_host query send w') s).2
          = [STATUS "GSConnect is not connected."])
  ∧ (∀ message device rest,
       field "type" message = JStr "devices" →
       field "data" message = JArr (device :: rest) →
       forallb (fun d => negb (nullish d)) (device :: rest) = true →
       let w' := (handleNMHMessage message w).2 in
       content (renderPopupUI (popup_host query send w') s).2
       = [DEVICE_LIST (map device_item (device :: rest))]).
Proof.
  intros Ht Hu. split.
  - intros p q Hq Ho Hd w'.
    assert (storage_get ["devices"; "connected"] w'
            = {[ "devices" := JArr []; "connected" := JBool false ]}) as Hs.
    { subst w'. unfold step, native_disconnect, bind, read.
      rewrite Hq, Ho, Hd. apply (onNMHDisconnect_resets (set_ports _ w)). }
    destruct (renderPopupUI_written query send _ _ w' s t Ht Hu Hs) as (s1 & Hc & ->).
    simpl. by rewrite Hc.
  - intros message device rest Hty Hda Hn w'.
    assert (storage_get ["devices"; "connected"] w'
            = {[ "devices" := JArr (device :: rest); "connected" := JBool true ]}) as Hs.
    { subst w'. rewrite (handleNMHMessage_devices _ _ Hty), Hda.
      rewrite <- (storage_get_written (JArr (device :: rest)) (JBool true) w).
      by apply storage_get_ext. }
    destruct (renderPopupUI_written query send _ _ w' s t Ht Hu Hs) as (s1 & Hc & ->).
    cbn [is_false]. unfold renderDeviceList. rewrite (device_items_all _ Hn).
    simpl. by rewrite Hc.
Qed.

(** * Properties of the build configuration *)

(** X22.  The output directory is always ["dist-"] followed by the text
    of [TARGET], the plain ["dist"] is never chosen: the test is on a
    name that already has its default.  With [TARGET] set the build is for
    that browser and goes to its directory; with [TARGET] missing or
    empty the build is for chrome, yet goes to ["dist-undefined"] or
    ["dist-"]. *)
Theorem build_output_directory (TARGET : option string) :
  config_outDir TARGET = "dist-" +:+ interpolated TARGET
  ∧ config_outDir TARGET ≠ "dist"
  ∧ (∀ s, TARGET = Some s → s ≠ "" →
          config_browser TARGET = s ∧ config_outDir TARGET = "dist-" +:+ s)
  ∧ (url_truthy TARGET = false →
     config_browser TARGET = "chrome"
     ∧ config_outDir TARGET ≠ "dist-" +:+ config_browser TARGET).
Proof.
  assert (config_outDir TARGET = "dist-" +:+ interpolated TARGET) as H.
  { unfold config_outDir, target, or_else. destruct TARGET as [s|]; [|done].
    destruct (String.eqb_spec s ""); [done|].
    by destruct (String.eqb_spec s ""). }
  split; [done|]. rewrite H. split; [by destruct (interpolated TARGET)|].
  split.
  - intros s -> Hs. unfold config_browser, or_else.
    by destruct (String.eqb_spec s "").
  - destruct TARGET as [s|]; simpl.
    + destruct (String.eqb_spec s "") as [->|]; [|done]. intros _. by split.
    + intros _. by split.
Qed.

Lemma lookup_package_defaults (own : gmap string JsValue) (k : string) :
  ({[ "name" := property "name" own; "description" := property "description" own;
      "version" := property "version" own ]} : gmap string JsValue) !! k
  = if bool_decide (k ∈ ["name"; "description"; "version"])
    then Some (property k own) else None.
Proof.
  destruct (decide (k = "name")) as [->|Hn]; [by rewrite lookup_insert_eq|].
  rewrite lookup_insert_ne by done.
  destruct (decide (k = "description")) as [->|Hd]; [by rewrite lookup_insert_eq|].
  rewrite lookup_insert_ne by done.
  destruct (decide (k = "version")) as [->|Hv]; [by rewrite lookup_singleton_eq|].
  rewrite lookup_singleton_ne by done.
  rewrite bool_decide_eq_false_2; [done|].
  rewrite !elem_of_cons, elem_of_nil. by intros [?|[?|[?|[]]]].
Qed.

(** X23.  [generateManifest] throws exactly when [package.json] holds
    [null].  Otherwise every member of [manifest.json] is in the result
    with the value given there, also [name], [description] and [version];
    these three are taken from [package.json] where [manifest.json] does
    not give them, and are present, as [undefined], even if [package.json]
    lacks them; nothing else of [package.json] gets in.  So for a
    [manifest.json] that gives all three, the result is its content and
    [package.json] has no say. *)
Theorem manifest_overrides_package (manifest pkg : Json) :
  match generateManifest manifest pkg with
  | Throw _ => pkg = None
  | Ok m =>
      ∃ own, pkg = Some own
      ∧ (∀ k v, default ∅ manifest !! k = Some v → m !! k = Some v)
      ∧ (∀ k, k ∈ ["name"; "description"; "version"] →
              default ∅ manifest !! k = None →
              m !! k = Some (default JUndefined (own !! k)))
      ∧ (∀ k, k ∉ ["name"; "description"; "version"] →
              m !! k = default ∅ manifest !! k)
      ∧ ((∀ k, k ∈ ["name"; "description"; "version"] →
               is_Some (default ∅ manifest !! k)) →
         m = default ∅ manifest)
  end.
Proof.
  unfold generateManifest. destruct pkg as [own|]; [|done].
  exists own. split; [done|].
  assert (∀ k, (default ∅ manifest
                ∪ {[ "name" := property "name" own;
                     "description" := property "description" own;
                     "version" := property "version" own ]}) !! k
               = match default ∅ manifest !! k with
                 | Some v => Some v
                 | None => if bool_decide (k ∈ ["name"; "description"; "version"])
                           then Some (property k own) else None
                 end) as Hlookup.
  { intros k. rewrite lookup_union, lookup_package_defaults.
    destruct (default ∅ manifest !! k); by destruct (bool_decide _). }
  split; [|split; [|split]].
  - intros k v Hk. by rewrite Hlookup, Hk.
  - intros k Hk Hm. by rewrite Hlookup, Hm, bool_decide_eq_true_2.
  - intros k Hk. rewrite Hlookup, bool_decide_eq_false_2 by done.
    by destruct (default ∅ manifest !! k).
  - intros Hall. apply map_eq. intros k. rewrite Hlookup.
    destruct (default ∅ manifest !! k) as [v|] eqn:Hk; [done|].
    destruct (decide (k ∈ ["name"; "description"; "version"])) as [Hin|Hout].
    + destruct (Hall k Hin) as [v Hv]. congruence.
    + by rewrite bool_decide_eq_false_2.
Qed.

(** ** A change in a tab that is not the active one *)

Lemma onTabUpdated_url (tabId : nat) (u : string) (w : World) :
  u ≠ "" →
  step (TabUpdated tabId (Some u)) w
  = updateContextMenu None
      (set_trace ((if Background.isSpecialUrl (Some u)
                   then ActionDisable tabId else ActionEnable tabId) :: trace w)
         (set_tabs (<[tabId := Some u]> (tabs w)) w)).
Proof.
  intros Hu. unfold step, onTabUpdated, bind, modify. cbn [fst snd url_truthy].
  destruct (String.eqb_spec u ""); [done|]. cbn [negb]. unfold bind, updateIconState.
  by destruct (Background.isSpecialUrl (Some u)).
Qed.

(** X24.  When the URL of a tab changes, the icon of that tab is set by
    the new URL, while the menu, a delay later, is rebuilt for the tab
    that is active: a change in a background tab leaves the menu as the
    active tab wants it. *)
Theorem update_of_background_tab
    (tabId active : nat) (u : string) (url : option string) (d : nat) (w : World) :
  timers_ok w → u ≠ "" →
  active_tab w = Some active → active ≠ tabId → tabs w !! active = Some url →
  250 ≤ d →
  let w' := run [TabUpdated tabId (Some u); Elapsed d] w in
  icon_calls (trace w')
  = (tabId, negb (Background.isSpecialUrl (Some u))) :: icon_calls (trace w)
  ∧ menus w' = expected_menu url.
Proof.
  intros Hw Hu Ha Hne Ht Hd w'. subst w'. unfold run. cbn [foldl].
  rewrite (onTabUpdated_url _ _ _ Hu). cbn [step modify snd].
  set (w0 := set_trace _ (set_tabs _ w)).
  assert (timers_ok w0) as H0 by exact Hw.
  destruct (trigger_pending w0 H0) as (Hp & Htr & Htb & Hac).
  set (w1 := (updateContextMenu None w0).2) in *.
  destruct Hp as (id & Htm & Hh).
  rewrite (elapse_fire d w1 _ Htm) by (simpl; lia).
  rewrite trace_set_now, menus_set_now.
  change ((id, now w1 + 250).2) with (now w1 + 250).
  set (w2 := set_timers [] (set_now (now w1 + 250) w1)).
  destruct (rebuildContextMenu_runs w2) as (_ & Hm & Hr).
  assert (current_url w2 = url) as Hcu.
  { unfold current_url. change (active_tab w2) with (active_tab w1).
    change (tabs w2) with (tabs w1). rewrite Hac, Htb.
    change (active_tab w0) with (active_tab w). rewrite Ha.
    change (tabs w0) with (<[tabId := Some u]> (tabs w)).
    rewrite lookup_insert_ne by done. by rewrite Ht. }
  rewrite Hm, Hr, Hcu. split; [|done].
  rewrite icon_calls_app. change (trace w2) with (trace w1). rewrite Htr.
  by destruct (Background.isSpecialUrl url), (Background.isSpecialUrl (Some u)).
Qed.

(** ** The icon and the popup *)

(** X25.  For a tab with a URL that is not empty the icon and the popup
    agree: the background script enables the icon of the tab exactly when
    the popup, opened on that tab, does not answer that sharing is not
    available. *)
Theorem icon_enabled_iff_popup_available
    (tabId : nat) (u : string) (h : PopupHost) (s : PopupState) (w : World) :
  u ≠ "" → current_tab h = Some (mkTab tabId (Some u)) →
  icon_calls (trace (updateIconState tabId (Some u) w).2)
  = (tabId, true) :: icon_calls (trace w)
  ↔ content (renderPopupUI h s).2 ≠ [STATUS "Sharing is not available on this page."].
Proof.
  intros Hu Ht. pose proof (background_isSpecialUrl_nonempty u Hu) as Hbp.
  unfold updateIconState.
  destruct (Background.isSpecialUrl (Some u)) eqn:Hs; symmetry in Hbp.
  - split; [intros [=] | intros H; destruct H].
    by apply (renderPopupUI_special h s _ Ht).
  - split; [|done]. intros _.
    destruct (renderPopupUI_shareable h s _ Ht Hbp) as (s1 & Hc & _ & ->).
    destruct (is_false _); [simpl; rewrite Hc; discriminate|].
    destruct (default JUndefined (stored h !! "devices")) as [| | | | |[|d ds]|];
      simpl; rewrite ?Hc; try discriminate.
    unfold renderDeviceList. destruct (device_items (d :: ds));
      simpl; rewrite ?Hc; discriminate.
Qed.

(** * The further properties at work on concrete runs *)

(** A setting of the user's survives a failed start. *)
Lemma other_keys_untouched_witness :
  storage (run [Installed false] (set_storage {[ "theme" := JStr "dark" ]} fresh))
    !! "theme"
  = storage (set_storage {[ "theme" := JStr "dark" ]} fresh) !! "theme".
Proof.
  exact (other_keys_untouched [Installed false]
           (set_storage {[ "theme" := JStr "dark" ]} fresh) "theme"
           ltac:(discriminate) ltac:(discriminate)).
Defined.

Lemma posts_are_requests_or_shares_witness :
  EXAMPLE_SHARE = DEVICES_REQUEST
  ∨ EXAMPLE_SHARE
    ∈ share_requests [Installed true; RuntimeMessage EXAMPLE_SHARE (mkSender None)].
Proof.
  assert (posts (trace (run [Installed true;
                             RuntimeMessage EXAMPLE_SHARE (mkSender None)] fresh))
          = [(0, EXAMPLE_SHARE)]) as Hposts by (vm_compute; reflexivity).
  apply (posts_are_requests_or_shares
           [Installed true; RuntimeMessage EXAMPLE_SHARE (mkSender None)] 0).
  rewrite Hposts. apply list_elem_of_here.
Defined.

Lemma menu_holds_share_entry_only_witness :
  let w := run [TabCreated 1 (Some "https://example.com"); TabActivated 1;
                Elapsed 250] fresh in
  step (MenuClicked "openPopup") w = (Ok tt, set_trace (ActionOpenPopup :: trace w) w).
Proof.
  intros w.
  assert (menus w = [SHARE_ENTRY]) as Hmenus by (vm_compute; reflexivity).
  destruct (menu_holds_share_entry_only
              [TabCreated 1 (Some "https://example.com"); TabActivated 1; Elapsed 250]
              SHARE_ENTRY) as [_ H].
  apply H. fold w. rewrite Hmenus. apply list_elem_of_here.
Defined.

Lemma router_robust_witness :
  (handleRuntimeMessage JNull (mkSender None) fresh).2
  = set_trace [Console LogWarn "Received invalid message." [];
               Console LogInfo "Received message:" [JNull]] fresh.
Proof.
  destruct (router_robust JNull (mkSender None) fresh) as (_ & _ & _ & _ & _ & H).
  exact (H eq_refl).
Defined.

Lemma icon_and_menu_agree_witness :
  let w := run [TabCreated 1 (Some "about:blank")] fresh in
  icon_calls (trace (run [TabActivated 1; Elapsed 250] w)) = [(1, false)]
  ∧ menus (run [TabActivated 1; Elapsed 250] w) = [].
Proof.
  exact (icon_and_menu_agree 1 (Some "about:blank") 250
           (run [TabCreated 1 (Some "about:blank")] fresh) I eq_refl (le_n 250)).
Defined.

Lemma activation_of_unknown_tab_witness :
  timers (step (TabActivated 5) fresh).2 = []
  ∧ icon_calls (trace (step (TabActivated 5) fresh).2) = [].
Proof.
  destruct (activation_of_unknown_tab 5 fresh eq_refl) as (_ & Hi & Ht & _).
  split; [exact Ht | exact Hi].
Defined.

Lemma silent_until_restart_witness :
  let evs := [RuntimeMessage EXAMPLE_SHARE (mkSender None); Elapsed 10;
              NativeMessage 0 (EXAMPLE_CONNECTED (JBool true))] in
  nmhPort (run evs fresh) = None ∧ posts (trace (run evs fresh)) = [].
Proof.
  intros evs. exact (silent_until_restart evs fresh eq_refl eq_refl).
Defined.

Lemma reconnect_closes_old_channel_witness :
  ports (connectToNMH false (run [Installed true] fresh)).2 !! 0 = Some (close CHANNEL).
Proof.
  destruct (reconnect_closes_old_channel false 0 CHANNEL (run [Installed true] fresh)
              eq_refl eq_refl) as [H _].
  exact H.
Defined.

Lemma popup_refuses_unshareable_page_witness :
  content (renderPopupUI
             (mkPopupHost (Ok [mkTab 1 (Some "about:blank")])
                          (EXAMPLE_STORE [EXAMPLE_PHONE]) true)
             EMPTY_POPUP).2
  = [STATUS "Sharing is not available on this page."].
Proof.
  destruct (popup_refuses_unshareable_page
              (mkPopupHost (Ok [mkTab 1 (Some "about:blank")])
                           (EXAMPLE_STORE [EXAMPLE_PHONE]) true)
              EMPTY_POPUP (or_intror eq_refl)) as [_ H].
  exact H.
Defined.

Lemma popup_not_connected_iff_witness :
  content (renderPopupUI (mkPopupHost EXAMPLE_PAGE ∅ true) EMPTY_POPUP).2
  = [STATUS "No devices found."].
Proof.
  destruct (popup_not_connected_iff (mkPopupHost EXAMPLE_PAGE ∅ true) EMPTY_POPUP
              (mkTab 1 (Some "https://example.com")) eq_refl eq_refl) as [_ H].
  destruct (H eq_refl) as [_ Hc]. exact Hc.
Defined.

Lemma popup_lists_devices_witness :
  flat_map clicks
    (content (renderPopupUI
                (mkPopupHost EXAMPLE_PAGE (EXAMPLE_STORE [EXAMPLE_PHONE; EXAMPLE_LAPTOP])
                             true)
                EMPTY_POPUP).2)
  = [(JStr "a", "share"); (JStr "a", "telephony"); (JStr "b", "share")].
Proof.
  assert (EXAMPLE_STORE [EXAMPLE_PHONE; EXAMPLE_LAPTOP] !! "connected"
          ≠ Some (JBool false)) as Hc by discriminate.
  destruct (popup_lists_devices
              (mkPopupHost EXAMPLE_PAGE (EXAMPLE_STORE [EXAMPLE_PHONE; EXAMPLE_LAPTOP])
                           true)
              EMPTY_POPUP (mkTab 1 (Some "https://example.com"))
              EXAMPLE_PHONE [EXAMPLE_LAPTOP] eq_refl eq_refl Hc eq_refl eq_refl)
    as (_ & _ & H).
  exact H.
Defined.

Lemma popup_blank_on_null_device_witness :
  content (renderPopupUI
             (mkPopupHost EXAMPLE_PAGE (EXAMPLE_STORE [EXAMPLE_PHONE; JNull]) true)
             EMPTY_POPUP).2
  = [].
Proof.
  assert (EXAMPLE_STORE [EXAMPLE_PHONE; JNull] !! "connected"
          ≠ Some (JBool false)) as Hc by discriminate.
  destruct (popup_blank_on_null_device
              (mkPopupHost EXAMPLE_PAGE (EXAMPLE_STORE [EXAMPLE_PHONE; JNull]) true)
              EMPTY_POPUP (mkTab 1 (Some "https://example.com"))
              [EXAMPLE_PHONE; JNull] eq_refl eq_refl Hc eq_refl eq_refl) as [_ H].
  exact H.
Defined.

Lemma click_reaches_companion_witness :
  ∃ m,
    outbox (handleActionClick (JStr "a") "share" (mkPopupHost EXAMPLE_PAGE ∅ true)
              EMPTY_POPUP) = [m]
    ∧ posts (trace (step (RuntimeMessage m (mkSender None))
                      (run [Installed true] fresh)).2) = [(0, m)].
Proof.
  destruct (click_reaches_companion (JStr "a") "share"
              (mkPopupHost EXAMPLE_PAGE ∅ true) EMPTY_POPUP
              (mkTab 1 (Some "https://example.com")) 0 (run [Installed true] fresh)
              eq_refl eq_refl eq_refl eq_refl)
    as (m & u & Ho & _ & _ & _ & _ & _ & _ & Hp & _).
  exists m. split; [exact Ho | exact Hp].
Defined.

Lemma popup_follows_background_witness :
  content (renderPopupUI
             (popup_host EXAMPLE_PAGE true
                (step (NativeDisconnect 0) (run [Installed true] fresh)).2)
             EMPTY_POPUP).2
  = [STATUS "GSConnect is not connected."].
Proof.
  destruct (popup_follows_background EXAMPLE_PAGE true EMPTY_POPUP
              (mkTab 1 (Some "https://example.com")) (run [Installed true] fresh)
              eq_refl eq_refl) as [H _].
  exact (H 0 CHANNEL eq_refl eq_refl eq_refl).
Defined.

Lemma build_output_directory_witness :
  (config_browser (Some "firefox") = "firefox"
   ∧ config_outDir (Some "firefox") = "dist-firefox")
  ∧ config_browser None = "chrome".
Proof.
  destruct (build_output_directory (Some "firefox")) as (_ & _ & H & _).
  destruct (build_output_directory None) as (_ & _ & _ & H').
  split; [apply (H "firefox"); [reflexivity | discriminate]|].
  apply H'. reflexivity.
Defined.

Lemma update_of_background_tab_witness :
  let w := run [TabCreated 1 (Some "https://example.com"); TabCreated 2 None;
                TabActivated 1; Elapsed 250] fresh in
  menus (run [TabUpdated 2 (Some "about:blank"); Elapsed 250] w) = [SHARE_ENTRY].
Proof.
  intros w.
  destruct (update_of_background_tab 2 1 "about:blank" (Some "https://example.com")
              250 w I ltac:(discriminate) eq_refl ltac:(discriminate) eq_refl
              (le_n 250)) as [_ H].
  exact H.
Defined.

Lemma icon_enabled_iff_popup_available_witness :
  content (renderPopupUI (mkPopupHost EXAMPLE_PAGE ∅ true) EMPTY_POPUP).2
  ≠ [STATUS "Sharing is not available on this page."].
Proof.
  apply (icon_enabled_iff_popup_available 1 "https://example.com"
           (mkPopupHost EXAMPLE_PAGE ∅ true) EMPTY_POPUP fresh);
    [discriminate | reflexivity | reflexivity].
Defined.
